(** * Architect AI floor-plan editor: a shallow embedding of the client code

    The definitions follow the layout of [web/src/client]:
    - [JsMath], [Js], [JsNumber], [JsString], [Dom] : what the client uses
      of the runtime (Math, values decoded from JSON with truthiness, [?.]
      and [??], numbers with NaN and infinities, [trim], [split], [Number],
      [parseFloat], the document tree of a DOMParser);
    - [Types]         : types.ts (points, walls, assets, plans, selection,
                        view);
    - [Geometry]      : geometry.ts (distance, midpoint, clamp, grid
                        snapping, length-preserving projection, units);
    - [Encode]        : typed values as the objects the runtime holds;
    - [PlanGenerator] : planGenerator.ts (remote generation with fallback);
    - [SvgParser]     : svgParser.ts (symbol import);
    - [App]           : App.tsx (view and camera, plan updates, the pointer
                        driven drag controller, add-symbol, load);
    - [Editor]        : App.tsx, the remaining handlers (length field,
                        add-wall, selection list, save payload, generate)
                        and the editor as a transition system;
    - [Spec]          : the vocabulary of the statements.
    The theorems come after the definitions, one section per component.

    Numbers.  A JavaScript [number] is an IEEE-754 double.  The geometry and
    camera code is embedded over the real numbers [R]: every statement about
    it is about the exact arithmetic the code approximates, which is what
    "within floating tolerance" refers to.  Where the code itself tests for
    NaN or infinities (the symbol importer) the embedding keeps them as
    separate constructors.

    The runtime services the client calls but does not define ([fetch],
    [JSON.parse], [DOMParser]) are section variables: every theorem holds
    for whatever they return. *)

From Stdlib Require Import Reals Lra Lia ZArith List String Ascii Bool.
Import ListNotations.

#[global] Set Warnings "-register-all".

Open Scope R_scope.

(** ** Runtime arithmetic used by the client *)

Module JsMath.

(** [Math.hypot(dx, dy)]. *)
Definition hypot (dx dy : R) : R := sqrt (dx * dx + dy * dy).

(** [Math.round(x)]: the integer nearest to [x]; of two equally near
    integers the one closer to +infinity, that is [floor (x + 1/2)]. *)
Definition round (x : R) : R := IZR (Int_part (x + / 2)).

(** [Math.max] and [Math.min] on two arguments. *)
Definition max (a b : R) : R := Rmax a b.
Definition min (a b : R) : R := Rmin a b.

(** [n || d] on numbers: [0] is the falsy real. *)
Definition or_else (n d : R) : R := if Req_dec_T n 0 then d else n.

End JsMath.

(** ** types.ts *)

Module Types.

(** [type Pt = { x: number; y: number }]. *)
Record Pt : Type := mkPt { pt_x : R; pt_y : R }.

Record Wall : Type := mkWall { wall_id : string; wall_a : Pt; wall_b : Pt }.

Record SvgAsset : Type := mkSvgAsset {
  asset_id : string;
  asset_name : string;
  asset_inner : string;
  asset_vbW : R;
  asset_vbH : R;
  asset_x : R;
  asset_y : R;
  asset_scale : R;
  asset_rotationDeg : R
}.

Record Plan : Type := mkPlan { walls : list Wall; assets : list SvgAsset }.

(** [{ type: "wall"; id } | { type: "asset"; id } | null]. *)
Inductive Selection : Type :=
| SelWall (id : string)
| SelAsset (id : string)
| SelNull.

Record ViewState : Type := mkView { view_x : R; view_y : R; view_scale : R }.

End Types.

(** ** geometry.ts *)

Module Geometry.

Import Types.

Definition dist (a b : Pt) : R :=
  let dx := pt_x a - pt_x b in
  let dy := pt_y a - pt_y b in
  JsMath.hypot dx dy.

Definition mid (a b : Pt) : Pt :=
  mkPt ((pt_x a + pt_x b) / 2) ((pt_y a + pt_y b) / 2).

Definition clamp (n lo hi : R) : R := JsMath.max lo (JsMath.min hi n).

Definition snapToGrid (p : Pt) (grid : R) : Pt :=
  mkPt (JsMath.round (pt_x p / grid) * grid)
       (JsMath.round (pt_y p / grid) * grid).

Definition setLengthFromA (a b : Pt) (newLen : R) : Pt :=
  let dx := pt_x b - pt_x a in
  let dy := pt_y b - pt_y a in
  let len := JsMath.or_else (JsMath.hypot dx dy) 1 in
  let s := newLen / len in
  mkPt (pt_x a + dx * s) (pt_y a + dy * s).

Definition pxToMeters (px scalePxPerM : R) : R := px / scalePxPerM.

Definition metersToPx (m scalePxPerM : R) : R := m * scalePxPerM.

(** The rounding rule as the specification words it: halves away from
    zero.  It is only compared with [JsMath.round]; the code never uses
    it. *)
Definition roundHalfAwayFromZero (x : R) : R :=
  if Rle_dec 0 x then IZR (Int_part (x + / 2))
  else - IZR (Int_part (- x + / 2)).

Definition snapToGrid_halfAway (p : Pt) (grid : R) : Pt :=
  mkPt (roundHalfAwayFromZero (pt_x p / grid) * grid)
       (roundHalfAwayFromZero (pt_y p / grid) * grid).

End Geometry.

(** ** JavaScript values and exceptions *)

Module Js.

(** What a [throw] carries: the runtime's own errors and
    [new Error(message)]. *)
Inductive Error : Type :=
| SyntaxError
| TypeError
| ErrorMsg (message : string).

(** A computation that returns or throws. *)
Inductive result (A : Type) : Type :=
| Ok (a : A)
| Throw (e : Error).

Arguments Ok {A} a.
Arguments Throw {A} e.

Definition bind {A B : Type} (m : result A) (k : A -> result B) : result B :=
  match m with
  | Ok a => k a
  | Throw e => Throw e
  end.

(** [try { body } catch (err) { handler }] around a body that returns. *)
Definition tryCatch {A : Type} (body : result A) (handler : Error -> A) : A :=
  match body with
  | Ok a => a
  | Throw e => handler e
  end.

(** The values [JSON.parse] and [res.json()] produce, with [undefined],
    which reading an absent property yields.  An object is the list of its
    own properties in insertion order. *)
Inductive value : Type :=
| Undefined
| Null
| Bool (b : bool)
| Num (n : R)
| Str (s : string)
| Arr (items : list value)
| Obj (fields : list (string * value)).

(** [!!v]. *)
Definition truthy (v : value) : bool :=
  match v with
  | Undefined | Null => false
  | Bool b => b
  | Num n => if Req_dec_T n 0 then false else true
  | Str s => negb (String.eqb s "")
  | Arr _ | Obj _ => true
  end.

Definition nullish (v : value) : bool :=
  match v with
  | Undefined | Null => true
  | _ => false
  end.

Fixpoint lookup (k : string) (fields : list (string * value)) : value :=
  match fields with
  | [] => Undefined
  | (k', v) :: rest => if String.eqb k k' then v else lookup k rest
  end.

(** Reading property [k] of a value that is neither [null] nor
    [undefined].  The client reads only [plan], [view], [prompt], [walls]
    and [id]; no array, string, number or boolean has a property of one of
    these names. *)
Definition get (v : value) (k : string) : value :=
  match v with
  | Obj fields => lookup k fields
  | _ => Undefined
  end.

(** [v.k]. *)
Definition dot (v : value) (k : string) : result value :=
  if nullish v then Throw TypeError else Ok (get v k).

(** [v?.k]. *)
Definition optDot (v : value) (k : string) : value :=
  if nullish v then Undefined else get v k.

(** Element [0] of a value that is neither [null] nor [undefined]: of an
    array its first item, of a string its first character, of an object
    its property ["0"]. *)
Definition get0 (v : value) : value :=
  match v with
  | Arr items => nth 0 items Undefined
  | Str (String c _) => Str (String c EmptyString)
  | Obj fields => lookup "0" fields
  | _ => Undefined
  end.

(** [v[0]]. *)
Definition index0 (v : value) : result value :=
  if nullish v then Throw TypeError else Ok (get0 v).

(** [v?.[0]]. *)
Definition optIndex0 (v : value) : value :=
  if nullish v then Undefined else get0 v.

(** [a ?? b]. *)
Definition coalesce (a b : value) : value := if nullish a then b else a.

End Js.

Declare Scope js_scope.
Delimit Scope js_scope with js.
Notation "x <- m ;; k" := (Js.bind m (fun x => k))
  (at level 61, m at next level, right associativity) : js_scope.

(** ** Typed values as the objects the runtime holds *)

Module Encode.

Import Types Js.

Definition js_of_pt (p : Pt) : value :=
  Obj [("x", Num (pt_x p)); ("y", Num (pt_y p))]%string.

Definition js_of_wall (w : Wall) : value :=
  Obj [("id", Str (wall_id w));
       ("a", js_of_pt (wall_a w));
       ("b", js_of_pt (wall_b w))]%string.

Definition js_of_asset (a : SvgAsset) : value :=
  Obj [("id", Str (asset_id a));
       ("name", Str (asset_name a));
       ("inner", Str (asset_inner a));
       ("vbW", Num (asset_vbW a));
       ("vbH", Num (asset_vbH a));
       ("x", Num (asset_x a));
       ("y", Num (asset_y a));
       ("scale", Num (asset_scale a));
       ("rotationDeg", Num (asset_rotationDeg a))]%string.

Definition js_of_plan (p : Plan) : value :=
  Obj [("walls", Arr (map js_of_wall (walls p)));
       ("assets", Arr (map js_of_asset (assets p)))]%string.

Definition js_of_view (v : ViewState) : value :=
  Obj [("x", Num (view_x v));
       ("y", Num (view_y v));
       ("scale", Num (view_scale v))]%string.

Definition js_of_selection (s : Selection) : value :=
  match s with
  | SelWall id => Obj [("type", Str "wall"); ("id", Str id)]%string
  | SelAsset id => Obj [("type", Str "asset"); ("id", Str id)]%string
  | SelNull => Null
  end.

End Encode.

(** ** planGenerator.ts *)

Module PlanGenerator.

Import Types Js Encode.

(** What the client reads of a [fetch] response: [res.ok], [res.status]
    (as the template literal prints it) and the outcome of [res.json()]. *)
Record Response : Type := mkResponse {
  ok : bool;
  status : string;
  json : result value
}.

Definition fallback : Plan :=
  mkPlan
    [ mkWall "w1" (mkPt 120 120) (mkPt 720 120);
      mkWall "w2" (mkPt 720 120) (mkPt 720 540);
      mkWall "w3" (mkPt 720 540) (mkPt 120 540);
      mkWall "w4" (mkPt 120 540) (mkPt 120 120);
      mkWall "w5" (mkPt 420 120) (mkPt 420 540) ]
    [].

Section Generate.

(** The POST to the fixed endpoint with body [{ prompt }]: it resolves
    to a response or rejects. *)
Variable fetch : string -> result Response.

Local Open Scope js_scope.

Definition generatePlanFromText (prompt : string) : value :=
  tryCatch
    (res <- fetch prompt ;;
     if negb (ok res) then Throw (ErrorMsg ("API " ++ status res))
     else
       data <- json res ;;
       if negb (truthy (optDot (optDot data "plan") "walls"))
       then Throw (ErrorMsg "Malformed API response")
       else dot data "plan")
    (fun _err => js_of_plan fallback).

End Generate.

End PlanGenerator.

(** ** Runtime numbers where the code tests for NaN and infinities *)

Module JsNumber.

(** A [number] whose finite values are read as reals. *)
Inductive num : Type :=
| NaN
| Infinity (negative : bool)
| Fin (r : R).

(** [Number.isFinite(n)]. *)
Definition isFinite (n : num) : bool :=
  match n with
  | Fin _ => true
  | _ => false
  end.

(** [n > 0]. *)
Definition gt0 (n : num) : bool :=
  match n with
  | NaN => false
  | Infinity negative => negb negative
  | Fin r => if Rlt_dec 0 r then true else false
  end.

(** The real a number stands for where the client stores it in a record
    of plain coordinates; the importer only ever hands out finite sizes,
    so nothing is lost there. *)
Definition toR (n : num) : R :=
  match n with
  | Fin r => r
  | _ => 0
  end.

(** The range of doubles: a magnitude at or above [2^1024 - 2^970] rounds
    to an infinity and one at or below [2^-1075] rounds to zero.  The
    rounding of the significand in between is not modelled. *)
Definition overflowAt : R := IZR (2 ^ 1024 - 2 ^ 970).
Definition underflowAt : R := / IZR (2 ^ 1075).

Definition ofReal (r : R) : num :=
  if Rle_dec overflowAt (Rabs r) then
    Infinity (if Rlt_dec r 0 then true else false)
  else if Rle_dec (Rabs r) underflowAt then Fin 0
  else Fin r.

End JsNumber.

(** ** Runtime string operations: [trim], [split], [Number], [parseFloat]

    Strings are sequences of code units below 256. *)

Module JsString.

Import JsNumber.

Definition chars (s : string) : list ascii := list_ascii_of_string s.
Definition ofChars (l : list ascii) : string := string_of_list_ascii l.

(** White space and line terminators below 256: TAB, LF, VT, FF, CR, SP
    and NBSP. *)
Definition isWhiteSpace (c : ascii) : bool :=
  let n := nat_of_ascii c in
  (Nat.eqb n 9 || Nat.eqb n 10 || Nat.eqb n 11 || Nat.eqb n 12
   || Nat.eqb n 13 || Nat.eqb n 32 || Nat.eqb n 160)%bool.

Fixpoint dropWhile (p : ascii -> bool) (l : list ascii) : list ascii :=
  match l with
  | [] => []
  | c :: rest => if p c then dropWhile p rest else l
  end.

Fixpoint span (p : ascii -> bool) (l : list ascii)
  : list ascii * list ascii :=
  match l with
  | [] => ([], [])
  | c :: rest =>
      if p c then
        let '(taken, remaining) := span p rest in (c :: taken, remaining)
      else ([], l)
  end.

Definition trimStartChars (l : list ascii) : list ascii :=
  dropWhile isWhiteSpace l.

Definition trimChars (l : list ascii) : list ascii :=
  rev (trimStartChars (rev (trimStartChars l))).

(** [s.trim()]. *)
Definition trim (s : string) : string := ofChars (trimChars (chars s)).

(** A string is truthy when it is not empty. *)
Definition nonEmpty (s : string) : bool := negb (String.eqb s "").

(** [s.split(/[ ,]+/)]: the pieces between maximal runs of spaces and
    commas, the empty pieces before a leading and after a trailing run
    included. *)
Definition isSeparator (c : ascii) : bool :=
  (Ascii.eqb c " " || Ascii.eqb c ",")%bool.

Fixpoint splitFrom (piece : list ascii) (inRun : bool) (l : list ascii)
  : list string :=
  match l with
  | [] => [ofChars (rev piece)]
  | c :: rest =>
      if isSeparator c then
        if inRun then splitFrom piece true rest
        else ofChars (rev piece) :: splitFrom [] true rest
      else splitFrom (c :: piece) false rest
  end.

Definition splitSpacesCommas (s : string) : list string :=
  splitFrom [] false (chars s).

(** *** Numeric literals *)

Definition isDigit (c : ascii) : bool :=
  let n := nat_of_ascii c in (Nat.leb 48 n && Nat.leb n 57)%bool.

Definition digitValue (c : ascii) : Z := Z.of_nat (nat_of_ascii c - 48).

Definition digitsValue (ds : list ascii) : Z :=
  fold_left (fun acc c => (acc * 10 + digitValue c)%Z) ds 0%Z.

(** The value of a scanned literal: an infinity, or
    [mantissa * 10 ^ exponent] with its sign kept apart. *)
Inductive literal : Type :=
| LitInfinity (negative : bool)
| LitDecimal (negative : bool) (mantissa : Z) (exponent : Z).

Definition decimalValue (mantissa exponent : Z) : R :=
  if (0 <=? exponent)%Z then IZR (mantissa * 10 ^ exponent)
  else IZR mantissa / IZR (10 ^ (- exponent)).

Definition numOfLiteral (l : literal) : num :=
  match l with
  | LitInfinity negative => Infinity negative
  | LitDecimal negative m e =>
      ofReal (if negative then - decimalValue m e else decimalValue m e)
  end.

Fixpoint stripPrefix (p l : list ascii) : option (list ascii) :=
  match p, l with
  | [], _ => Some l
  | a :: p', b :: l' => if Ascii.eqb a b then stripPrefix p' l' else None
  | _ :: _, [] => None
  end.

(** ExponentPart: [e] or [E], an optional sign, at least one digit; when
    no digit follows nothing is consumed. *)
Definition scanExponent (l : list ascii) : Z * list ascii :=
  match l with
  | c :: rest =>
      if (Ascii.eqb c "e" || Ascii.eqb c "E")%bool then
        let '(negative, afterSign) :=
          match rest with
          | "+"%char :: r => (false, r)
          | "-"%char :: r => (true, r)
          | _ => (false, rest)
          end in
        let '(ds, remaining) := span isDigit afterSign in
        match ds with
        | [] => (0%Z, l)
        | _ => ((if negative then - digitsValue ds else digitsValue ds)%Z,
                remaining)
        end
      else (0%Z, l)
  | [] => (0%Z, l)
  end.

(** The longest prefix that is a StrUnsignedDecimalLiteral, as
    (Infinity or mantissa and exponent), and what follows it. *)
Definition scanUnsigned (l : list ascii)
  : option (option (Z * Z) * list ascii) :=
  match stripPrefix (chars "Infinity") l with
  | Some remaining => Some (None, remaining)
  | None =>
      let '(ip, afterInt) := span isDigit l in
      match afterInt with
      | "."%char :: afterDot =>
          let '(fp, afterFrac) := span isDigit afterDot in
          match ip, fp with
          | [], [] => None
          | _, _ =>
              let '(e, remaining) := scanExponent afterFrac in
              Some (Some (digitsValue (ip ++ fp),
                          (e - Z.of_nat (List.length fp))%Z), remaining)
          end
      | _ =>
          match ip with
          | [] => None
          | _ =>
              let '(e, remaining) := scanExponent afterInt in
              Some (Some (digitsValue ip, e), remaining)
          end
      end
  end.

(** The longest prefix that is a StrDecimalLiteral (an optional sign and
    an unsigned literal). *)
Definition scanDecimal (l : list ascii) : option (literal * list ascii) :=
  let '(negative, body) :=
    match l with
    | "+"%char :: r => (false, r)
    | "-"%char :: r => (true, r)
    | _ => (false, l)
    end in
  match scanUnsigned body with
  | Some (None, remaining) => Some (LitInfinity negative, remaining)
  | Some (Some (m, e), remaining) =>
      Some (LitDecimal negative m e, remaining)
  | None => None
  end.

(** Non-decimal integer literals: [0x], [0o], [0b] and their digits. *)
Definition radixDigit (c : ascii) : option Z :=
  let n := nat_of_ascii c in
  if (Nat.leb 48 n && Nat.leb n 57)%bool then Some (Z.of_nat (n - 48))
  else if (Nat.leb 97 n && Nat.leb n 102)%bool then Some (Z.of_nat (n - 87))
  else if (Nat.leb 65 n && Nat.leb n 70)%bool then Some (Z.of_nat (n - 55))
  else None.

Fixpoint radixValue (radix acc : Z) (ds : list ascii) : option Z :=
  match ds with
  | [] => Some acc
  | c :: rest =>
      match radixDigit c with
      | Some d =>
          if (d <? radix)%Z then radixValue radix (acc * radix + d)%Z rest
          else None
      | None => None
      end
  end.

Definition radixOfMark (c : ascii) : option Z :=
  if (Ascii.eqb c "x" || Ascii.eqb c "X")%bool then Some 16%Z
  else if (Ascii.eqb c "o" || Ascii.eqb c "O")%bool then Some 8%Z
  else if (Ascii.eqb c "b" || Ascii.eqb c "B")%bool then Some 2%Z
  else None.

Definition scanNonDecimal (l : list ascii) : option Z :=
  match l with
  | "0"%char :: mark :: d :: ds =>
      match radixOfMark mark with
      | Some radix => radixValue radix 0%Z (d :: ds)
      | None => None
      end
  | _ => None
  end.

(** [Number(s)] on a string. *)
Definition toNumber (s : string) : num :=
  let l := trimChars (chars s) in
  match l with
  | [] => Fin 0
  | _ =>
      match scanDecimal l with
      | Some (lit, []) => numOfLiteral lit
      | _ =>
          match scanNonDecimal l with
          | Some z => ofReal (IZR z)
          | None => NaN
          end
      end
  end.

(** [Number.parseFloat(s)]. *)
Definition parseFloat (s : string) : num :=
  match scanDecimal (trimStartChars (chars s)) with
  | Some (lit, _) => numOfLiteral lit
  | None => NaN
  end.

End JsString.

(** ** The document tree a DOMParser hands back *)

Module Dom.

Inductive Node : Type :=
| Element (tag : string) (attrs : list (string * string))
          (children : list Node)
| Text (data : string)
| Comment (data : string).

(** A document: its top-level nodes in order. *)
Definition Document : Type := list Node.

Definition isElementNamed (name : string) (n : Node) : bool :=
  match n with
  | Element tag _ _ => String.eqb tag name
  | _ => false
  end.

(** The first element named [name] at or below [n], in document order. *)
Fixpoint findElement (name : string) (n : Node) : option Node :=
  match n with
  | Element tag _ children =>
      if String.eqb tag name then Some n
      else
        (fix first (l : list Node) : option Node :=
           match l with
           | [] => None
           | c :: rest =>
               match findElement name c with
               | Some hit => Some hit
               | None => first rest
               end
           end) children
  | _ => None
  end.

(** [doc.querySelector(name)] for a type selector. *)
Fixpoint querySelector (name : string) (doc : Document) : option Node :=
  match doc with
  | [] => None
  | n :: rest =>
      match findElement name n with
      | Some hit => Some hit
      | None => querySelector name rest
      end
  end.

(** [el.getAttribute(name)]; [None] is [null]. *)
Fixpoint attribute (name : string) (attrs : list (string * string))
  : option string :=
  match attrs with
  | [] => None
  | (k, v) :: rest => if String.eqb k name then Some v else attribute name rest
  end.

Definition getAttribute (el : Node) (name : string) : option string :=
  match el with
  | Element _ attrs _ => attribute name attrs
  | _ => None
  end.

Definition childNodes (el : Node) : list Node :=
  match el with
  | Element _ _ children => children
  | _ => []
  end.

(** [el.querySelectorAll("script").forEach((n) => n.remove())]: every
    [script] element below [el] goes, with what it contains. *)
Fixpoint removeScripts (el : Node) : Node :=
  match el with
  | Element tag attrs children =>
      Element tag attrs
        ((fix prune (l : list Node) : list Node :=
            match l with
            | [] => []
            | c :: rest =>
                if isElementNamed "script" c then prune rest
                else removeScripts c :: prune rest
            end) children)
  | _ => el
  end.

(** Markup written back from the tree: tags, attributes, text and
    comments in document order.  The namespace declarations and character
    escapes the runtime adds are left out. *)
Definition quote : string := String (ascii_of_nat 34) EmptyString.

Fixpoint attrsMarkup (attrs : list (string * string)) : string :=
  match attrs with
  | [] => EmptyString
  | (k, v) :: rest =>
      (" " ++ k ++ "=" ++ quote ++ v ++ quote ++ attrsMarkup rest)%string
  end.

Fixpoint outerMarkup (n : Node) : string :=
  match n with
  | Element tag attrs children =>
      match children with
      | [] => ("<" ++ tag ++ attrsMarkup attrs ++ "/>")%string
      | _ =>
          ("<" ++ tag ++ attrsMarkup attrs ++ ">"
           ++ (fix each (l : list Node) : string :=
                 match l with
                 | [] => EmptyString
                 | c :: rest => (outerMarkup c ++ each rest)%string
                 end) children
           ++ "</" ++ tag ++ ">")%string
      end
  | Text data => data
  | Comment data => ("<!--" ++ data ++ "-->")%string
  end.

Fixpoint markupOfNodes (l : list Node) : string :=
  match l with
  | [] => EmptyString
  | c :: rest => (outerMarkup c ++ markupOfNodes rest)%string
  end.

(** [el.innerHTML]. *)
Definition innerHTML (el : Node) : string := markupOfNodes (childNodes el).

End Dom.

(** ** svgParser.ts *)

Module SvgParser.

Import Js JsNumber JsString Dom.

Record Parsed : Type := mkParsed { inner : string; vbW : num; vbH : num }.

(** Lines 12-26: the size the [viewBox] attribute gives, [(0, 0)] when it
    gives none. *)
Definition viewBoxParts (vb : string) : list num :=
  map toNumber
    (filter nonEmpty (map trim (splitSpacesCommas vb))).

Definition viewBoxSize (vb : option string) : num * num :=
  match vb with
  | Some text =>
      if nonEmpty text then
        let parts := viewBoxParts text in
        if (Nat.eqb (List.length parts) 4 && forallb isFinite parts)%bool
        then (nth 2 parts NaN, nth 3 parts NaN)
        else (Fin 0, Fin 0)
      else (Fin 0, Fin 0)
  | None => (Fin 0, Fin 0)
  end.

(** Lines 28-40: the [width] and [height] attributes when the size so far
    is not positive, and 100 by 100 when they give no positive size. *)
Definition resolveSize (svgEl : Node) (size : num * num) : num * num :=
  let '(vbW, vbH) := size in
  if negb (gt0 vbW && gt0 vbH) then
    let wAttr := match getAttribute svgEl "width" with
                 | Some a => a | None => EmptyString end in
    let hAttr := match getAttribute svgEl "height" with
                 | Some a => a | None => EmptyString end in
    let w := parseFloat wAttr in
    let h := parseFloat hAttr in
    if (isFinite w && isFinite h && gt0 w && gt0 h)%bool then (w, h)
    else (Fin 100, Fin 100)
  else (vbW, vbH).

Section Parse.

(** [new DOMParser().parseFromString(text, "image/svg+xml")]. *)
Variable parseFromString : string -> Document.

Definition parseSvgText (svgText : string) : result Parsed :=
  let trimmed := trim svgText in
  let doc := parseFromString trimmed in
  match querySelector "parsererror" doc with
  | Some _ => Throw (ErrorMsg "Invalid SVG (parsererror)")
  | None =>
      match querySelector "svg" doc with
      | None => Throw (ErrorMsg "Invalid SVG: missing <svg>")
      | Some svgEl =>
          let vb := getAttribute svgEl "viewBox" in
          let '(vbW, vbH) := resolveSize svgEl (viewBoxSize vb) in
          let inner := innerHTML (removeScripts svgEl) in
          if negb (nonEmpty (trim inner))
          then Throw (ErrorMsg "SVG has no drawable content")
          else Ok (mkParsed inner vbW vbH)
      end
  end.

End Parse.

End SvgParser.

(** ** App.tsx *)

Module App.

Import Types Geometry Js JsNumber Encode.

Definition GRID : R := 20.
Definition SCALE_PX_PER_M : R := 100.

(** The markup of [SYMBOLS.TV.svg], written with an apostrophe wherever
    the source has a double quote; [withQuotes] puts the quotes back. *)
Definition withQuotes (s : string) : string :=
  string_of_list_ascii
    (map (fun c => if Ascii.eqb c "'" then ascii_of_nat 34 else c)
         (list_ascii_of_string s)).

Definition TV_svg : string := withQuotes
"<?xml version='1.0' encoding='UTF-8' standalone='no'?>
<svg width='68.529091mm' height='6.6113729mm' viewBox='0 0 68.529092 6.6113729' xmlns='http://www.w3.org/2000/svg'>
  <g transform='translate(-16.044039,-83.803322)'>
    <g>
      <rect style='fill:none;stroke:#000000;stroke-width:0.75' width='61.756626' height='3.2600846' x='19.430269' y='84.178322' />
      <rect style='fill:none;stroke:#000000;stroke-width:0.75' width='67.779091' height='2.6012869' x='16.419039' y='87.438408' />
    </g>
  </g>
</svg>".

Definition TV_name : string := "TV".
Definition TV_defaultWidthM : R := 12 / 10.

Inductive Endpoint : Type := EndA | EndB.

(** [type DragState = null | pan | handle | asset]. *)
Inductive DragState : Type :=
| DragNull
| DragPan (startClient : Pt) (startView : ViewState)
| DragHandle (wallId : string) (which : Endpoint)
| DragAsset (assetId : string) (startWorld startPos : Pt).

(** The state cells the canvas handlers read and write: [plan],
    [selection], [view] and [dragRef.current]. *)
Record State : Type := mkState {
  plan : Plan;
  selection : Selection;
  view : ViewState;
  dragRef : DragState
}.

Definition initialPlan : Plan :=
  mkPlan
    [ mkWall "w1" (mkPt 100 100) (mkPt 700 100);
      mkWall "w2" (mkPt 700 100) (mkPt 700 500);
      mkWall "w3" (mkPt 700 500) (mkPt 100 500);
      mkWall "w4" (mkPt 100 500) (mkPt 100 100);
      mkWall "w5" (mkPt 400 100) (mkPt 400 500) ]
    [].

Definition initialState : State :=
  mkState initialPlan (SelWall "w1") (mkView 0 0 1) DragNull.

(** What [svgRef.current.getBoundingClientRect()] gives the handlers. *)
Record Rect : Type := mkRect { rect_left : R; rect_top : R }.

(** *** Plan updates *)

Definition setEndpoint (w : Wall) (which : Endpoint) (next : Pt) : Wall :=
  match which with
  | EndA => mkWall (wall_id w) next (wall_b w)
  | EndB => mkWall (wall_id w) (wall_a w) next
  end.

(** The updater [updateWallEndpoint(id, which, next)] hands to
    [setPlan], applied to the current plan [p]. *)
Definition updateWallEndpoint (id : string) (which : Endpoint) (next : Pt)
    (p : Plan) : Plan :=
  mkPlan
    (map (fun w => if String.eqb (wall_id w) id
                   then setEndpoint w which next else w)
         (walls p))
    (assets p).

(** The patch [{ x, y }] of [updateAsset], the only one the client
    builds. *)
Definition updateAsset (id : string) (x y : R) (p : Plan) : Plan :=
  mkPlan
    (walls p)
    (map (fun a => if String.eqb (asset_id a) id
                   then mkSvgAsset (asset_id a) (asset_name a)
                          (asset_inner a) (asset_vbW a) (asset_vbH a)
                          x y (asset_scale a) (asset_rotationDeg a)
                   else a)
         (assets p)).

(** *** View and camera *)

(** The canvas group is drawn under
    [translate(view.x view.y) scale(view.scale)]. *)
Definition worldToScreen (v : ViewState) (p : Pt) : Pt :=
  mkPt (pt_x p * view_scale v + view_x v) (pt_y p * view_scale v + view_y v).

(** The inverse the handlers compute on a pointer position taken relative
    to the canvas. *)
Definition screenToWorld (v : ViewState) (p : Pt) : Pt :=
  mkPt ((pt_x p - view_x v) / view_scale v)
       ((pt_y p - view_y v) / view_scale v).

Definition clientToWorld (svg : option Rect) (v : ViewState) (client : Pt)
  : Pt :=
  match svg with
  | None => mkPt 0 0
  | Some rect =>
      let sx := pt_x client - rect_left rect in
      let sy := pt_y client - rect_top rect in
      mkPt ((sx - view_x v) / view_scale v) ((sy - view_y v) / view_scale v)
  end.

Definition zoomView (v : ViewState) (pointer : Pt) (deltaY : R) : ViewState :=
  let scaleBy := 108 / 100 in
  let direction := if Rlt_dec 0 deltaY then -1 else 1 in
  let newScale :=
    clamp (view_scale v
           * (if Rlt_dec 0 direction then scaleBy else 1 / scaleBy))
          (2 / 10) 6 in
  let mousePointTo :=
    mkPt ((pt_x pointer - view_x v) / view_scale v)
         ((pt_y pointer - view_y v) / view_scale v) in
  let newPos :=
    mkPt (pt_x pointer - pt_x mousePointTo * newScale)
         (pt_y pointer - pt_y mousePointTo * newScale) in
  mkView (pt_x newPos) (pt_y newPos) newScale.

Definition onWheel (svg : option Rect) (clientX clientY deltaY : R)
    (s : State) : State :=
  match svg with
  | None => s
  | Some rect =>
      let pointer :=
        mkPt (clientX - rect_left rect) (clientY - rect_top rect) in
      mkState (plan s) (selection s) (zoomView (view s) pointer deltaY)
              (dragRef s)
  end.

(** *** Pointer handlers *)

(** [role] is [target.dataset.role], [None] when the target carries
    none. *)
Definition onPointerDownBackground (role : option string)
    (clientX clientY : R) (s : State) : State :=
  match role with
  | Some r =>
      if (negb (String.eqb r "") && negb (String.eqb r "background"))%bool
      then s
      else mkState (plan s) (selection s) (view s)
             (DragPan (mkPt clientX clientY) (view s))
  | None =>
      mkState (plan s) (selection s) (view s)
        (DragPan (mkPt clientX clientY) (view s))
  end.

Definition onPointerMove (svg : option Rect) (clientX clientY : R)
    (s : State) : State :=
  match dragRef s with
  | DragNull => s
  | DragPan startClient startView =>
      let dx := clientX - pt_x startClient in
      let dy := clientY - pt_y startClient in
      mkState (plan s) (selection s)
        (mkView (view_x startView + dx) (view_y startView + dy)
                (view_scale startView))
        (dragRef s)
  | DragHandle wallId which =>
      let world := clientToWorld svg (view s) (mkPt clientX clientY) in
      let snapped := snapToGrid world GRID in
      mkState (updateWallEndpoint wallId which snapped (plan s))
        (selection s) (view s) (dragRef s)
  | DragAsset assetId startWorld startPos =>
      let world := clientToWorld svg (view s) (mkPt clientX clientY) in
      let dx := pt_x world - pt_x startWorld in
      let dy := pt_y world - pt_y startWorld in
      let next := snapToGrid (mkPt (pt_x startPos + dx) (pt_y startPos + dy))
                    GRID in
      mkState (updateAsset assetId (pt_x next) (pt_y next) (plan s))
        (selection s) (view s) (dragRef s)
  end.

Definition onPointerUp (s : State) : State :=
  mkState (plan s) (selection s) (view s) DragNull.

(** [onPointerDown] of the group drawn for asset [a]. *)
Definition onPointerDownAsset (svg : option Rect) (a : SvgAsset)
    (clientX clientY : R) (s : State) : State :=
  let startWorld := clientToWorld svg (view s) (mkPt clientX clientY) in
  mkState (plan s) (SelAsset (asset_id a)) (view s)
    (DragAsset (asset_id a) startWorld (mkPt (asset_x a) (asset_y a))).

(** [onPointerDown] of the line drawn for wall [w]. *)
Definition onPointerDownWallLine (w : Wall) (s : State) : State :=
  mkState (plan s) (SelWall (wall_id w)) (view s) (dragRef s).

(** [onPointerDown] of the circle drawn at endpoint [which] of wall [w]. *)
Definition onPointerDownHandle (w : Wall) (which : Endpoint) (s : State)
  : State :=
  mkState (plan s) (SelWall (wall_id w)) (view s)
    (DragHandle (wall_id w) which).

(** *** Adding the symbol *)

Section Canvas.

Variable parseFromString : string -> Dom.Document.

Local Open Scope js_scope.

(** [freshId] is what [uid("asset")] returns. *)
Definition addSymbol (freshId : string) (s : State) : State :=
  tryCatch
    (parsed <- SvgParser.parseSvgText parseFromString TV_svg ;;
     let desiredWidthPx := metersToPx TV_defaultWidthM SCALE_PX_PER_M in
     let scale := desiredWidthPx / toR (SvgParser.vbW parsed) in
     let pos := snapToGrid (mkPt 140 140) GRID in
     let asset :=
       mkSvgAsset freshId TV_name (SvgParser.inner parsed)
         (toR (SvgParser.vbW parsed)) (toR (SvgParser.vbH parsed))
         (pt_x pos) (pt_y pos) scale 0 in
     let v := view s in
     Ok (mkState
           (mkPlan (walls (plan s)) (assets (plan s) ++ [asset]))
           (SelAsset (asset_id asset))
           (mkView (600 - asset_x asset * view_scale v)
                   (400 - asset_y asset * view_scale v)
                   (view_scale v))
           (dragRef s)))
    (fun _err => s).

(** *** The canvas as a transition system

    An event names the element the runtime dispatches it to: the
    handlers of assets, wall lines and endpoint circles stop
    propagation, so the canvas handler sees a pointer-down only when it
    lands elsewhere.  Elements are named by their position in the
    plan. *)
Inductive Event : Type :=
| Wheel (clientX clientY deltaY : R)
| PointerDownCanvas (role : option string) (clientX clientY : R)
| PointerDownAsset (index : nat) (clientX clientY : R)
| PointerDownWallLine (index : nat)
| PointerDownHandle (index : nat) (which : Endpoint)
| PointerMove (clientX clientY : R)
| PointerUp
| AddSymbol (freshId : string).

Definition step (svg : option Rect) (s : State) (ev : Event) : State :=
  match ev with
  | Wheel cx cy dy => onWheel svg cx cy dy s
  | PointerDownCanvas role cx cy => onPointerDownBackground role cx cy s
  | PointerDownAsset i cx cy =>
      match nth_error (assets (plan s)) i with
      | Some a => onPointerDownAsset svg a cx cy s
      | None => s
      end
  | PointerDownWallLine i =>
      match nth_error (walls (plan s)) i with
      | Some w => onPointerDownWallLine w s
      | None => s
      end
  | PointerDownHandle i which =>
      match nth_error (walls (plan s)) i with
      | Some w => onPointerDownHandle w which s
      | None => s
      end
  | PointerMove cx cy => onPointerMove svg cx cy s
  | PointerUp => onPointerUp s
  | AddSymbol freshId => addSymbol freshId s
  end.

Inductive reachable : State -> Prop :=
| reach_init : reachable initialState
| reach_step (svg : option Rect) (s : State) (ev : Event) :
    reachable s -> reachable (step svg s ev).

End Canvas.

(** The pointer-down events. *)
Definition isPointerDown (ev : Event) : bool :=
  match ev with
  | PointerDownCanvas _ _ _ | PointerDownAsset _ _ _
  | PointerDownWallLine _ | PointerDownHandle _ _ => true
  | _ => false
  end.

(** *** Loading a document

    [onLoadFile] writes values it never inspects into the [plan], [view],
    [prompt] and [selection] cells, so the cells are modelled as holding
    runtime values. *)
Record Cells : Type := mkCells {
  c_plan : value;
  c_view : value;
  c_prompt : value;
  c_selection : value
}.

(** A handler over the cells that returns or throws. *)
Definition Action (A : Type) : Type := Cells -> Cells * result A.

Definition bindA {A B : Type} (m : Action A) (k : A -> Action B) : Action B :=
  fun c =>
    match m c with
    | (c', Ok a) => k a c'
    | (c', Throw e) => (c', Throw e)
    end.

Definition lift {A : Type} (r : result A) : Action A := fun c => (c, r).

Definition setPlan (v : value) : Action unit :=
  fun c => (mkCells v (c_view c) (c_prompt c) (c_selection c), Ok tt).
Definition setView (v : value) : Action unit :=
  fun c => (mkCells (c_plan c) v (c_prompt c) (c_selection c), Ok tt).
Definition setPrompt (v : value) : Action unit :=
  fun c => (mkCells (c_plan c) (c_view c) v (c_selection c), Ok tt).
Definition setSelection (v : value) : Action unit :=
  fun c => (mkCells (c_plan c) (c_view c) (c_prompt c) v, Ok tt).

Declare Scope action_scope.
Notation "x <- m ;; k" := (bindA m (fun x => k))
  (at level 61, m at next level, right associativity) : action_scope.
Notation "m ;;; k" := (bindA m (fun _ => k))
  (at level 61, right associativity) : action_scope.

Section Load.

(** [JSON.parse]; it throws a [SyntaxError] on text that is not JSON. *)
Variable JSON_parse : string -> result value.

Local Open Scope action_scope.

(** [text] is what [await file.text()] resolves to. *)
Definition onLoadFile (text : string) : Action unit :=
  parsed <- lift (JSON_parse text) ;;
  if negb (truthy (optDot parsed "plan"))
  then lift (Throw (ErrorMsg "Invalid file"))
  else
    p <- lift (dot parsed "plan") ;;
    setPlan p ;;;
    v <- lift (dot parsed "view") ;;
    setView (coalesce v (js_of_view (mkView 0 0 1))) ;;;
    pr <- lift (dot parsed "prompt") ;;
    setPrompt (coalesce pr (Str "")) ;;;
    p1 <- lift (dot parsed "plan") ;;
    ws <- lift (dot p1 "walls") ;;
    (if truthy (optDot (optIndex0 ws) "id")
     then
       p2 <- lift (dot parsed "plan") ;;
       ws2 <- lift (dot p2 "walls") ;;
       w0 <- lift (index0 ws2) ;;
       id <- lift (dot w0 "id") ;;
       setSelection (Obj [("type", Str "wall"); ("id", id)]%string)
     else setSelection Null).

End Load.

(** The cells of a typed state. *)
Definition cellsOf (s : State) (prompt : string) : Cells :=
  mkCells (js_of_plan (plan s)) (js_of_view (view s)) (Str prompt)
          (js_of_selection (selection s)).

End App.

(** ** App.tsx, the remaining handlers *)

Module Editor.

Import Types Geometry Js JsNumber JsString Encode App.

(** *** Selected elements *)

(** The [selectedWall] memo: the first wall whose id is the selected one,
    [None] for [null]. *)
Definition selectedWall (p : Plan) (sel : Selection) : option Wall :=
  match sel with
  | SelWall id => find (fun w => String.eqb (wall_id w) id) (walls p)
  | _ => None
  end.

Definition selectedAsset (p : Plan) (sel : Selection) : option SvgAsset :=
  match sel with
  | SelAsset id => find (fun a => String.eqb (asset_id a) id) (assets p)
  | _ => None
  end.

(** *** Patching a wall *)

(** [Partial<Wall>]: each field present or absent. *)
Record WallPatch : Type := mkWallPatch {
  patch_id : option string;
  patch_a : option Pt;
  patch_b : option Pt
}.

(** [{ ...w, ...patch }]. *)
Definition applyWallPatch (w : Wall) (patch : WallPatch) : Wall :=
  mkWall
    (match patch_id patch with Some i => i | None => wall_id w end)
    (match patch_a patch with Some a => a | None => wall_a w end)
    (match patch_b patch with Some b => b | None => wall_b w end).

(** The updater [updateWall(id, patch)] hands to [setPlan]. *)
Definition updateWall (id : string) (patch : WallPatch) (p : Plan) : Plan :=
  mkPlan
    (map (fun w => if String.eqb (wall_id w) id
                   then applyWallPatch w patch else w)
         (walls p))
    (assets p).

Definition setSelectedWallLengthMeters (m : R) (s : State) : State :=
  match selectedWall (plan s) (selection s) with
  | None => s
  | Some w =>
      let newLenPx := metersToPx m SCALE_PX_PER_M in
      let newB := setLengthFromA (wall_a w) (wall_b w) newLenPx in
      mkState
        (updateWall (wall_id w)
           (mkWallPatch None None (Some (snapToGrid newB GRID)))
           (plan s))
        (selection s) (view s) (dragRef s)
  end.

(** *** Adding a wall *)

Inductive Orientation : Type := Horizontal | Vertical.

(** [freshId] is what [uid("w")] returns; [newWallLengthM] and
    [newWallOrientation] are the two form cells. *)
Definition addWall (freshId : string) (newWallLengthM : R)
    (newWallOrientation : Orientation) (s : State) : State :=
  let lenPx :=
    metersToPx (JsMath.max 0 (JsMath.or_else newWallLengthM 0))
               SCALE_PX_PER_M in
  let centerWorld :=
    snapToGrid
      (mkPt ((600 - view_x (view s)) / view_scale (view s))
            ((400 - view_y (view s)) / view_scale (view s)))
      GRID in
  let snappedLenPx := JsMath.round (lenPx / GRID) * GRID in
  let b :=
    match newWallOrientation with
    | Horizontal => mkPt (pt_x centerWorld + snappedLenPx) (pt_y centerWorld)
    | Vertical => mkPt (pt_x centerWorld) (pt_y centerWorld + snappedLenPx)
    end in
  let id := freshId in
  let wall := mkWall id centerWorld b in
  mkState (mkPlan (walls (plan s) ++ [wall]) (assets (plan s)))
          (SelWall id) (view s) (dragRef s).

(** *** The selection list *)

(** [s.split(":")]: the pieces between colons, empty ones included. *)
Fixpoint splitAtColons (piece : list ascii) (l : list ascii) : list string :=
  match l with
  | [] => [ofChars (rev piece)]
  | c :: rest =>
      if Ascii.eqb c ":" then ofChars (rev piece) :: splitAtColons [] rest
      else splitAtColons (c :: piece) rest
  end.

Definition splitColons (s : string) : list string :=
  splitAtColons [] (chars s).

(** The [value] the list shows for a selection; it is also the value of
    the option of the wall or asset with that id. *)
Definition selectValue (sel : Selection) : string :=
  match sel with
  | SelWall id => ("wall:" ++ id)%string
  | SelAsset id => ("asset:" ++ id)%string
  | SelNull => EmptyString
  end.

(** [onChange] of the list: [const [type, id] = value.split(":")].  The
    selection it sets is a runtime value, since [id] is [undefined] when the
    value has no colon. *)
Definition onSelectChange (value : string) : Js.value :=
  let parts := splitColons value in
  let type := nth 0 parts EmptyString in
  let id := match nth_error parts 1 with
            | Some i => Str i
            | None => Undefined
            end in
  if String.eqb type "wall" then Obj [("type", Str "wall"); ("id", id)]%string
  else if String.eqb type "asset"
       then Obj [("type", Str "asset"); ("id", id)]%string
       else Null.

(** *** The whole editor as a transition system

    The canvas events of [App.step] and the two form actions that edit the
    plan. *)
Inductive Command : Type :=
| Canvas (svg : option Rect) (ev : Event)
| AddWall (freshId : string) (newWallLengthM : R)
          (newWallOrientation : Orientation)
| SetSelectedWallLength (m : R).

Section Run.

Variable parseFromString : string -> Dom.Document.

Definition run (s : State) (c : Command) : State :=
  match c with
  | Canvas svg ev => step parseFromString svg s ev
  | AddWall freshId len orientation => addWall freshId len orientation s
  | SetSelectedWallLength m => setSelectedWallLengthMeters m s
  end.

Inductive reachable : State -> Prop :=
| reach_init : reachable initialState
| reach_run (s : State) (c : Command) :
    reachable s -> reachable (run s c).

End Run.

(** *** Saving *)

(** The [payload] of [onSave], [{ plan, view, prompt }], as the runtime
    holds it. *)
Definition savePayload (s : State) (prompt : string) : Js.value :=
  Obj [("plan", js_of_plan (plan s));
       ("view", js_of_view (view s));
       ("prompt", Str prompt)]%string.

(** *** Generating *)

Section Generate.

Variable fetch : string -> result PlanGenerator.Response.

Local Open Scope action_scope.

(** The body of [handleGenerate] between [setIsGenerating(true)] and
    [setIsGenerating(false)]; [prompt] is the prompt the closure holds.  The
    [catch] only logs. *)
Definition handleGenerate (prompt : string) : Action unit :=
  fun c =>
    match
      (let next := PlanGenerator.generatePlanFromText fetch prompt in
       setPlan next ;;;
       ws <- lift (dot next "walls") ;;
       let firstWall := optIndex0 ws in
       (if truthy firstWall
        then
          id <- lift (dot firstWall "id") ;;
          setSelection (Obj [("type", Str "wall"); ("id", id)]%string)
        else setSelection Null)) c
    with
    | (c', Ok tt) => (c', Ok tt)
    | (c', Throw _) => (c', Ok tt)
    end.

End Generate.

End Editor.

(** ** Vocabulary of the statements

    What the theorems below need to name: the conditions the statements speak
    of, the specification's own wording of an operation where it is compared
    with the code, and the concrete documents of the examples. *)

Module Spec.

Import Types Geometry Js JsNumber JsString Dom Encode SvgParser
       PlanGenerator App.

(** The canvas handler starts a pan unless the target carries a role
    other than ["background"]. *)
Definition startsPan (role : option string) : bool :=
  match role with
  | Some r => (String.eqb r "" || String.eqb r "background")%bool
  | None => true
  end.

(** The scale invariant of the canvas: the view's scale, and the scale a
    pan remembers, are in [0.2, 6]. *)
Definition inRange (scale : R) : Prop := 2 / 10 <= scale <= 6.

Definition scaleInvariant (s : State) : Prop :=
  inRange (view_scale (view s))
  /\ match dragRef s with
     | DragPan _ startView => inRange (view_scale startView)
     | _ => True
     end.

(** The selection [onLoadFile] installs for a decoded document. *)
Definition loadedSelection (parsed : value) : value :=
  let ws := get (get parsed "plan") "walls" in
  if truthy (optDot (optIndex0 ws) "id")
  then Obj [("type", Str "wall"); ("id", get (get0 ws) "id")]%string
  else Null.

Definition defaultView : value := js_of_view (mkView 0 0 1).

(** A saved document whose view has scale 100. *)
Definition zoomedDocument : value :=
  Obj [("plan", js_of_plan initialPlan);
       ("view", js_of_view (mkView 0 0 100));
       ("prompt", Str "")]%string.

(** A document with a [plan] that has no [walls]: the text
    [{ plan: {} }] decoded. *)
Definition planWithoutWalls : value := Obj [("plan", Obj [])]%string.

(** The ways a generation request fails: the request rejects, the status is
    not a success, the body does not decode, or the decoded body has no
    [plan.walls]. *)
Inductive RequestFailed (fetch : string -> result Response) (prompt : string)
  : Prop :=
| network_failure (e : Error) :
    fetch prompt = Throw e -> RequestFailed fetch prompt
| bad_status (res : Response) :
    fetch prompt = Ok res -> ok res = false -> RequestFailed fetch prompt
| body_not_json (res : Response) (e : Error) :
    fetch prompt = Ok res -> json res = Throw e -> RequestFailed fetch prompt
| missing_walls (res : Response) (data : value) :
    fetch prompt = Ok res -> json res = Ok data ->
    nullish (optDot (optDot data "plan") "walls") = true ->
    RequestFailed fetch prompt.

(** Four walls [w1] to [w4] that run around an axis-parallel rectangle, a
    fifth, [w5], that crosses its interior from the first side to the
    third, and no assets. *)
Definition rectangleWithPartition (p : Plan) : Prop :=
  exists x0 y0 x1 y1 xm : R,
    x0 < xm < x1 /\ y0 < y1
    /\ walls p =
         [ mkWall "w1" (mkPt x0 y0) (mkPt x1 y0);
           mkWall "w2" (mkPt x1 y0) (mkPt x1 y1);
           mkWall "w3" (mkPt x1 y1) (mkPt x0 y1);
           mkWall "w4" (mkPt x0 y1) (mkPt x0 y0);
           mkWall "w5" (mkPt xm y0) (mkPt xm y1) ]
    /\ assets p = [].

(** The intrinsic size as the specification words it: the third and fourth
    component of a [viewBox] of four finite numbers when both are positive;
    else the [width] and [height] attributes when both are finite and
    positive; else 100 by 100. *)
Definition viewBoxTuple (svgEl : Node) : option (num * num * num * num) :=
  match getAttribute svgEl "viewBox" with
  | Some vb =>
      match viewBoxParts vb with
      | [a; b; c; d] =>
          if forallb isFinite [a; b; c; d] then Some (a, b, c, d) else None
      | _ => None
      end
  | None => None
  end.

Definition attributeOrEmpty (svgEl : Node) (name : string) : string :=
  match getAttribute svgEl name with
  | Some a => a
  | None => EmptyString
  end.

Definition explicitSize (svgEl : Node) : option (num * num) :=
  let w := parseFloat (attributeOrEmpty svgEl "width") in
  let h := parseFloat (attributeOrEmpty svgEl "height") in
  if (isFinite w && isFinite h && gt0 w && gt0 h)%bool then Some (w, h)
  else None.

Definition explicitOrDefaultSize (svgEl : Node) : num * num :=
  match explicitSize svgEl with
  | Some size => size
  | None => (Fin 100, Fin 100)
  end.

Definition intrinsicSize (svgEl : Node) : num * num :=
  match viewBoxTuple svgEl with
  | Some (_, _, w, h) =>
      if (gt0 w && gt0 h)%bool then (w, h) else explicitOrDefaultSize svgEl
  | None => explicitOrDefaultSize svgEl
  end.

(** The document of the importer's test in tests.ts, as a tree: an [svg]
    element with [viewBox] and [xmlns] and one [rect]. *)
Definition exampleSvgText : string := withQuotes
"<?xml version='1.0' encoding='UTF-8' standalone='no'?>
  <svg viewBox='0 0 10 5' xmlns='http://www.w3.org/2000/svg'><rect x='0' y='0' width='10' height='5'/></svg>".

Definition exampleDocument : Document :=
  [ Element "svg"
      [("viewBox", "0 0 10 5"); ("xmlns", "http://www.w3.org/2000/svg")]
      [ Element "rect"
          [("x", "0"); ("y", "0"); ("width", "10"); ("height", "5")]
          [] ] ]%string.

(** *** Vocabulary for the rest of the editor *)

Import Editor.

(** The endpoint of a wall an [Endpoint] names. *)
Definition endpointOf (w : Wall) (which : Endpoint) : Pt :=
  match which with
  | EndA => wall_a w
  | EndB => wall_b w
  end.




Definition wallIds (p : Plan) : list string := map wall_id (walls p).
Definition assetIds (p : Plan) : list string := map asset_id (assets p).

(** A selection that is [null] or names an element of the plan. *)
Definition validSelection (p : Plan) (sel : Selection) : Prop :=
  match sel with
  | SelWall id => In id (wallIds p)
  | SelAsset id => In id (assetIds p)
  | SelNull => True
  end.

(** A drag that is a pan, no drag, or is about an element of the plan. *)
Definition validDrag (p : Plan) (d : DragState) : Prop :=
  match d with
  | DragHandle id _ => In id (wallIds p)
  | DragAsset id _ _ => In id (assetIds p)
  | _ => True
  end.

(** The invariant of [SvgAsset]: a positive intrinsic box and a positive
    scale. *)
Definition assetWellFormed (a : SvgAsset) : Prop :=
  0 < asset_vbW a /\ 0 < asset_vbH a /\ 0 < asset_scale a.

(** Two assets that differ at most in their position. *)
Definition sameButPosition (a a' : SvgAsset) : Prop :=
  asset_id a' = asset_id a
  /\ asset_name a' = asset_name a
  /\ asset_inner a' = asset_inner a
  /\ asset_vbW a' = asset_vbW a
  /\ asset_vbH a' = asset_vbH a
  /\ asset_scale a' = asset_scale a
  /\ asset_rotationDeg a' = asset_rotationDeg a.

(** Some character of the string is a colon. *)
Definition hasColon (s : string) : bool :=
  existsb (fun c => Ascii.eqb c ":") (chars s).

(** The selection [onLoadFile] and [handleGenerate] make for a plan whose
    walls are the given ones: the first wall, unless there is none or its
    id is the empty string. *)
Definition firstWallSelection (ws : list Wall) : Js.value :=
  match ws with
  | [] => Null
  | w :: _ =>
      if String.eqb (wall_id w) "" then Null
      else js_of_selection (SelWall (wall_id w))
  end.


End Spec.

(** ** Facts about the runtime arithmetic *)

Section RoundFacts.

Lemma Int_part_unique (r : R) (z : Z) :
  IZR z <= r < IZR z + 1 -> Int_part r = z.
Proof.
  intros [Hlo Hhi]. symmetry. apply Int_part_spec. lra.
Qed.

Lemma round_bounds (x : R) :
  JsMath.round x <= x + / 2 < JsMath.round x + 1.
Proof.
  unfold JsMath.round.
  destruct (base_Int_part (x + / 2)) as [Hle Hgt]. lra.
Qed.

Lemma round_unique (x : R) (k : Z) :
  IZR k <= x + / 2 < IZR k + 1 -> JsMath.round x = IZR k.
Proof.
  intros H. unfold JsMath.round. now rewrite (Int_part_unique _ k H).
Qed.

Lemma round_IZR (k : Z) : JsMath.round (IZR k) = IZR k.
Proof. apply round_unique. lra. Qed.

Lemma round_is_integer (x : R) : exists k : Z, JsMath.round x = IZR k.
Proof. now exists (Int_part (x + / 2)). Qed.

End RoundFacts.

Section GeometryFacts.

Import Types Geometry.

Lemma hypot_nonneg (dx dy : R) : 0 <= JsMath.hypot dx dy.
Proof. apply sqrt_pos. Qed.

Lemma hypot_sqr (dx dy : R) :
  JsMath.hypot dx dy * JsMath.hypot dx dy = dx * dx + dy * dy.
Proof. unfold JsMath.hypot. apply sqrt_sqrt. nra. Qed.

Lemma hypot_zero_iff (dx dy : R) :
  JsMath.hypot dx dy = 0 <-> dx = 0 /\ dy = 0.
Proof.
  split.
  - intros H. pose proof (hypot_sqr dx dy) as Hs. rewrite H in Hs. nra.
  - intros [-> ->]. unfold JsMath.hypot.
    replace (0 * 0 + 0 * 0) with 0 by ring. apply sqrt_0.
Qed.

Lemma hypot_scale (dx dy s : R) :
  0 <= s -> JsMath.hypot (dx * s) (dy * s) = s * JsMath.hypot dx dy.
Proof.
  intros Hs. unfold JsMath.hypot.
  replace (dx * s * (dx * s) + dy * s * (dy * s))
    with ((s * s) * (dx * dx + dy * dy)) by ring.
  rewrite sqrt_mult_alt by nra.
  now rewrite sqrt_square.
Qed.

Lemma snap_coord_idem (v g : R) :
  g <> 0 ->
  JsMath.round (JsMath.round (v / g) * g / g) * g = JsMath.round (v / g) * g.
Proof.
  intros Hg. destruct (round_is_integer (v / g)) as [k ->].
  replace (IZR k * g / g) with (IZR k) by (field; exact Hg).
  now rewrite round_IZR.
Qed.

Lemma snap_coord_near (v g : R) :
  0 < g ->
  v - g / 2 < JsMath.round (v / g) * g <= v + g / 2.
Proof.
  intros Hg. destruct (round_bounds (v / g)) as [Hlo Hhi].
  assert (Hv : v = v / g * g) by (field; lra).
  split.
  - apply Rmult_lt_compat_r with (r := g) in Hhi; [|exact Hg]. lra.
  - apply Rmult_le_compat_r with (r := g) in Hlo; [|lra]. lra.
Qed.

End GeometryFacts.

(** ** Grid snapping (geometry.ts, [snapToGrid]) *)

Section SnapToGrid.

Import Types Geometry.

(** C8, as the code has it.  For a positive grid size, [snapToGrid] moves
    each axis on its own to a multiple of the grid size that is nearest to
    it, and a coordinate lying exactly half way between two multiples goes
    to the upper one (toward +infinity): the snapped coordinate lies in
    the interval (v - g/2, v + g/2].  Snapping is idempotent, and the world
    point (17, 23) snaps to (20, 20) on a grid of 20. *)
Theorem snapToGrid_nearest_half_up (p : Pt) (g : R) :
  0 < g ->
  (exists kx ky : Z,
      pt_x (snapToGrid p g) = IZR kx * g
      /\ pt_y (snapToGrid p g) = IZR ky * g)
  /\ pt_x p - g / 2 < pt_x (snapToGrid p g) <= pt_x p + g / 2
  /\ pt_y p - g / 2 < pt_y (snapToGrid p g) <= pt_y p + g / 2
  /\ snapToGrid (snapToGrid p g) g = snapToGrid p g
  /\ snapToGrid (mkPt 17 23) 20 = mkPt 20 20.
Proof.
  intros Hg. repeat split.
  - destruct (round_is_integer (pt_x p / g)) as [kx Hx].
    destruct (round_is_integer (pt_y p / g)) as [ky Hy].
    exists kx, ky. cbn. now rewrite Hx, Hy.
  - apply snap_coord_near; exact Hg.
  - apply snap_coord_near; exact Hg.
  - apply snap_coord_near; exact Hg.
  - apply snap_coord_near; exact Hg.
  - unfold snapToGrid; cbn.
    rewrite !snap_coord_idem by lra. reflexivity.
  - unfold snapToGrid; cbn.
    rewrite (round_unique (17 / 20) 1) by lra.
    rewrite (round_unique (23 / 20) 1) by lra.
    f_equal; lra.
Qed.

Lemma snapToGrid_nearest_half_up_witness :
  0 < 20
  /\ pt_x (mkPt 17 23) - 20 / 2 < pt_x (snapToGrid (mkPt 17 23) 20)
     <= pt_x (mkPt 17 23) + 20 / 2.
Proof.
  split; [lra|].
  exact (proj1 (proj2 (snapToGrid_nearest_half_up (mkPt 17 23) 20
                         ltac:(lra)))).
Defined.

(** C8, as the specification words it, fails on a negative half: -10 on a
    grid of 20 is half way between -20 and 0; the code snaps it to 0,
    rounding halves away from zero would give -20. *)
Lemma snapToGrid_half_away_counterexample :
  snapToGrid (mkPt (-10) 0) 20 = mkPt 0 0
  /\ snapToGrid_halfAway (mkPt (-10) 0) 20 = mkPt (-20) 0
  /\ snapToGrid (mkPt (-10) 0) 20 <> snapToGrid_halfAway (mkPt (-10) 0) 20.
Proof.
  assert (Hcode : snapToGrid (mkPt (-10) 0) 20 = mkPt 0 0).
  { unfold snapToGrid; cbn.
    rewrite (round_unique (-10 / 20) 0) by lra.
    rewrite (round_unique (0 / 20) 0) by lra.
    f_equal; lra. }
  assert (Hspec : snapToGrid_halfAway (mkPt (-10) 0) 20 = mkPt (-20) 0).
  { unfold snapToGrid_halfAway, roundHalfAwayFromZero; cbn.
    destruct (Rle_dec 0 (-10 / 20)) as [Hle | _]; [lra|].
    destruct (Rle_dec 0 (0 / 20)) as [_ | Hn]; [|lra].
    rewrite (Int_part_unique (- (-10 / 20) + / 2) 1) by lra.
    rewrite (Int_part_unique (0 / 20 + / 2) 0) by lra.
    f_equal; lra. }
  repeat split; [exact Hcode | exact Hspec |].
  rewrite Hcode, Hspec. intros H.
  apply (f_equal pt_x) in H. cbn in H. lra.
Qed.

End SnapToGrid.

(** ** Setting a wall's length (geometry.ts, [setLengthFromA]) *)

Section SetLength.

Import Types Geometry.

Lemma pt_eq (a b : Pt) : pt_x a = pt_x b -> pt_y a = pt_y b -> a = b.
Proof. destruct a, b; cbn; intros -> ->; reflexivity. Qed.

Lemma hypot_opp (dx dy : R) : JsMath.hypot (- dx) (- dy) = JsMath.hypot dx dy.
Proof. unfold JsMath.hypot. f_equal. ring. Qed.

Lemma or_else_nonzero (n d : R) : n <> 0 -> JsMath.or_else n d = n.
Proof.
  intros Hn. unfold JsMath.or_else.
  destruct (Req_dec_T n 0); [contradiction | reflexivity].
Qed.

(** C1, as the code has it.  For distinct [a] and [b] and a length
    [newLen >= 0], [setLengthFromA a b newLen] lies on the ray from [a]
    through [b] (it is [a + t (b - a)] with [t >= 0]) at distance [newLen]
    from [a].  When [a = b] the guard [|| 1] only avoids the division by
    zero: the result is [a] itself, whatever [newLen] is. *)
Theorem setLengthFromA_on_ray (a b : Pt) (newLen : R) :
  0 <= newLen ->
  (a <> b ->
     dist a (setLengthFromA a b newLen) = newLen
     /\ exists t : R,
          0 <= t
          /\ pt_x (setLengthFromA a b newLen) = pt_x a + t * (pt_x b - pt_x a)
          /\ pt_y (setLengthFromA a b newLen) = pt_y a + t * (pt_y b - pt_y a))
  /\ (a = b -> setLengthFromA a b newLen = a).
Proof.
  intros HL. split.
  - intros Hab.
    set (dx := pt_x b - pt_x a). set (dy := pt_y b - pt_y a).
    assert (Hlen : JsMath.hypot dx dy <> 0).
    { intros H0. apply hypot_zero_iff in H0 as [Hx Hy].
      apply Hab. apply pt_eq; unfold dx, dy in *; lra. }
    assert (Hpos : 0 < JsMath.hypot dx dy).
    { pose proof (hypot_nonneg dx dy). lra. }
    assert (Hs : 0 <= newLen / JsMath.hypot dx dy).
    { apply Rmult_le_pos; [exact HL|].
      apply Rlt_le, Rinv_0_lt_compat, Hpos. }
    split.
    + unfold dist, setLengthFromA; cbn. fold dx dy.
      rewrite (or_else_nonzero _ 1 Hlen).
      replace (pt_x a - (pt_x a + dx * (newLen / JsMath.hypot dx dy)))
        with (- (dx * (newLen / JsMath.hypot dx dy))) by ring.
      replace (pt_y a - (pt_y a + dy * (newLen / JsMath.hypot dx dy)))
        with (- (dy * (newLen / JsMath.hypot dx dy))) by ring.
      rewrite hypot_opp, hypot_scale by exact Hs.
      field. exact Hlen.
    + exists (newLen / JsMath.hypot dx dy). split; [exact Hs|].
      unfold setLengthFromA; cbn. fold dx dy.
      rewrite (or_else_nonzero _ 1 Hlen). split; ring.
  - intros <-. unfold setLengthFromA.
    apply pt_eq; cbn; ring.
Qed.

Lemma setLengthFromA_on_ray_witness :
  0 <= 25 /\ dist (mkPt 0 0) (setLengthFromA (mkPt 0 0) (mkPt 10 0) 25) = 25.
Proof.
  split; [lra|].
  refine (proj1 (proj1 (setLengthFromA_on_ray (mkPt 0 0) (mkPt 10 0) 25
                          ltac:(lra)) _)).
  intros H. apply (f_equal pt_x) in H. cbn in H. lra.
Defined.

(** C1, as stated, fails when [a = b]: asked for length 1 from the
    degenerate wall at the origin, the code returns the origin, at
    distance 0. *)
Lemma setLengthFromA_degenerate_counterexample :
  0 <= 1
  /\ setLengthFromA (mkPt 0 0) (mkPt 0 0) 1 = mkPt 0 0
  /\ dist (mkPt 0 0) (setLengthFromA (mkPt 0 0) (mkPt 0 0) 1) <> 1.
Proof.
  assert (H : setLengthFromA (mkPt 0 0) (mkPt 0 0) 1 = mkPt 0 0).
  { unfold setLengthFromA. apply pt_eq; cbn; ring. }
  repeat split; [lra | exact H |].
  rewrite H. unfold dist; cbn.
  replace (0 - 0) with 0 by ring.
  rewrite (proj2 (hypot_zero_iff 0 0) (conj eq_refl eq_refl)). lra.
Qed.

End SetLength.

(** ** View and camera (App.tsx, [onWheel], [clientToWorld]) *)

Section Camera.

Import Types Geometry App.

Lemma clamp_in_range (n lo hi : R) : lo <= hi -> lo <= clamp n lo hi <= hi.
Proof.
  intros H. unfold clamp, JsMath.max, JsMath.min.
  unfold Rmax, Rmin.
  destruct (Rle_dec hi n); destruct (Rle_dec lo _); lra.
Qed.

Lemma zoomView_scale_in_range (v : ViewState) (pointer : Pt) (deltaY : R) :
  2 / 10 <= view_scale (zoomView v pointer deltaY) <= 6.
Proof. unfold zoomView; cbn. apply clamp_in_range. lra. Qed.

Lemma clientToWorld_screenToWorld (rect : Rect) (v : ViewState) (client : Pt) :
  clientToWorld (Some rect) v client
  = screenToWorld v (mkPt (pt_x client - rect_left rect)
                          (pt_y client - rect_top rect)).
Proof. reflexivity. Qed.

(** C3.  For a view whose scale is in [0.2, 6], any pointer position on
    the canvas and either wheel direction, the view the wheel handler
    installs draws the world point that was under the pointer at the
    pointer again; the new scale is the clamped one.  Stated for the
    camera functions and for the handler itself. *)
Theorem wheel_zoom_keeps_pivot (v : ViewState) (pivot : Pt) (deltaY : R) :
  2 / 10 <= view_scale v <= 6 ->
  worldToScreen (zoomView v pivot deltaY) (screenToWorld v pivot) = pivot
  /\ 2 / 10 <= view_scale (zoomView v pivot deltaY) <= 6
  /\ forall (rect : Rect) (s : State) (clientX clientY : R),
       view s = v ->
       pivot = mkPt (clientX - rect_left rect) (clientY - rect_top rect) ->
       worldToScreen (view (onWheel (Some rect) clientX clientY deltaY s))
         (clientToWorld (Some rect) (view s) (mkPt clientX clientY))
       = pivot.
Proof.
  intros Hv.
  assert (Hfix : forall w p,
             worldToScreen (zoomView w p deltaY) (screenToWorld w p) = p).
  { intros w p. unfold worldToScreen, zoomView, screenToWorld; cbn.
    apply pt_eq; cbn; ring. }
  split; [apply Hfix|]. split; [apply zoomView_scale_in_range|].
  intros rect s cx cy Hs ->.
  rewrite clientToWorld_screenToWorld. cbn. rewrite Hs. apply Hfix.
Qed.

Lemma wheel_zoom_keeps_pivot_witness :
  2 / 10 <= view_scale (mkView 0 0 1) <= 6
  /\ worldToScreen (zoomView (mkView 0 0 1) (mkPt 300 200) (-1))
       (screenToWorld (mkView 0 0 1) (mkPt 300 200))
     = mkPt 300 200.
Proof.
  assert (H : 2 / 10 <= view_scale (mkView 0 0 1) <= 6) by (cbn; lra).
  split; [exact H|].
  exact (proj1 (wheel_zoom_keeps_pivot (mkView 0 0 1) (mkPt 300 200) (-1) H)).
Defined.

End Camera.

(** ** Plan updates (App.tsx, [updateWallEndpoint]) *)

Section PlanUpdates.

Import Types Geometry App.

(** C7.  When no wall of the plan has the given id, the plan
    [updateWallEndpoint] produces equals the plan it was given (the
    embedding compares plans by value). *)
Theorem updateWallEndpoint_absent_id
    (p : Plan) (id : string) (which : Endpoint) (next : Pt) :
  (forall w, In w (walls p) -> wall_id w <> id) ->
  updateWallEndpoint id which next p = p.
Proof.
  intros Habsent. destruct p as [ws asts]. unfold updateWallEndpoint; cbn.
  f_equal. cbn in Habsent.
  induction ws as [|w ws IH]; cbn; [reflexivity|].
  rewrite IH by (intros w' Hin; apply Habsent; now right).
  destruct (String.eqb_spec (wall_id w) id) as [Heq | _].
  - exfalso. apply (Habsent w); [now left | exact Heq].
  - reflexivity.
Qed.

Lemma updateWallEndpoint_absent_id_witness :
  updateWallEndpoint "w9" EndA (mkPt 20 20) initialPlan = initialPlan.
Proof.
  apply updateWallEndpoint_absent_id.
  intros w Hin. cbn in Hin.
  repeat (destruct Hin as [<- | Hin]; [cbn; discriminate|]).
  contradiction.
Defined.

End PlanUpdates.

(** ** The drag controller (App.tsx, pointer handlers) *)

Section Controller.

Import Types Geometry App Spec.

Variable parseFromString : string -> Dom.Document.

Local Abbreviation step := (App.step parseFromString).
Local Abbreviation reachable := (App.reachable parseFromString).

Lemma onPointerDownBackground_pan role cx cy s :
  startsPan role = true ->
  onPointerDownBackground role cx cy s
  = mkState (plan s) (selection s) (view s) (DragPan (mkPt cx cy) (view s)).
Proof.
  unfold startsPan, onPointerDownBackground.
  destruct role as [r|]; [|reflexivity].
  destruct (String.eqb r ""), (String.eqb r "background");
    cbn; intros H; (reflexivity || discriminate).
Qed.

Lemma addSymbol_keeps_drag freshId s :
  dragRef (addSymbol parseFromString freshId s) = dragRef s.
Proof.
  unfold addSymbol.
  destruct (SvgParser.parseSvgText parseFromString TV_svg); reflexivity.
Qed.

Lemma addSymbol_keeps_scale freshId s :
  view_scale (view (addSymbol parseFromString freshId s))
  = view_scale (view s).
Proof.
  unfold addSymbol.
  destruct (SvgParser.parseSvgText parseFromString TV_svg); reflexivity.
Qed.

(** C9, as the code has it.  [dragRef] is one cell, so there is never
    more than one drag; but no handler looks at it before starting a
    drag.  Whatever the drag state is, a pointer-down on the canvas
    background starts a pan, one on an endpoint handle starts a handle
    drag and one on an asset starts an asset drag, each overwriting
    [dragRef]; a pointer-down on a wall line leaves [dragRef] as it is,
    and pointer-up clears it. *)
Theorem pointer_down_overwrites_drag (svg : option Rect) (s : State) :
  (forall role cx cy,
      startsPan role = true ->
      dragRef (step svg s (PointerDownCanvas role cx cy))
      = DragPan (mkPt cx cy) (view s))
  /\ (forall i w which,
         nth_error (walls (plan s)) i = Some w ->
         dragRef (step svg s (PointerDownHandle i which))
         = DragHandle (wall_id w) which)
  /\ (forall i a cx cy,
         nth_error (assets (plan s)) i = Some a ->
         dragRef (step svg s (PointerDownAsset i cx cy))
         = DragAsset (asset_id a)
             (clientToWorld svg (view s) (mkPt cx cy))
             (mkPt (asset_x a) (asset_y a)))
  /\ (forall i, dragRef (step svg s (PointerDownWallLine i)) = dragRef s)
  /\ dragRef (step svg s PointerUp) = DragNull.
Proof.
  repeat split.
  - intros role cx cy Hrole. cbn.
    now rewrite onPointerDownBackground_pan.
  - intros i w which Hw. cbn. now rewrite Hw.
  - intros i a cx cy Ha. cbn. now rewrite Ha.
  - intros i. cbn. now destruct (nth_error (walls (plan s)) i).
Qed.

Lemma scaleInvariant_init : scaleInvariant initialState.
Proof. unfold scaleInvariant, inRange; cbn. lra. Qed.

Lemma scaleInvariant_step svg s ev :
  scaleInvariant s -> scaleInvariant (step svg s ev).
Proof.
  intros [Hview Hdrag]. destruct ev as [cx cy dy | role cx cy | i cx cy
                                        | i | i which | cx cy | | freshId];
    cbn.
  - destruct svg as [rect|]; [|now split].
    split; [apply zoomView_scale_in_range | exact Hdrag].
  - unfold onPointerDownBackground.
    destruct role as [r|]; [|now split].
    destruct (negb (String.eqb r "") && negb (String.eqb r "background"))%bool;
      now split.
  - destruct (nth_error (assets (plan s)) i); now split.
  - destruct (nth_error (walls (plan s)) i); now split.
  - destruct (nth_error (walls (plan s)) i); now split.
  - unfold onPointerMove.
    destruct (dragRef s) as [| sc sv | wid wh | aid sw sp] eqn:Hd;
      unfold scaleInvariant; cbn; rewrite ?Hd; now split.
  - now split.
  - unfold scaleInvariant.
    rewrite addSymbol_keeps_scale, addSymbol_keeps_drag. now split.
Qed.

Lemma reachable_scaleInvariant s : reachable s -> scaleInvariant s.
Proof.
  induction 1 as [| svg s ev _ IH].
  - apply scaleInvariant_init.
  - now apply scaleInvariant_step.
Qed.

End Controller.

Lemma pointer_down_overwrites_drag_witness :
  App.dragRef
    (App.step (fun _ => []) None
       (App.step (fun _ => []) None App.initialState
          (App.PointerDownHandle 0 App.EndA))
       (App.PointerDownCanvas (Some "background"%string) 5 5))
  = App.DragPan (Types.mkPt 5 5) (Types.mkView 0 0 1).
Proof.
  refine (proj1 (pointer_down_overwrites_drag (fun _ => []) None
                   (App.step (fun _ => []) None App.initialState
                      (App.PointerDownHandle 0 App.EndA)))
            (Some "background"%string) 5 5 _).
  reflexivity.
Defined.

(** C9, as stated, fails: from the initial state a pointer-down on the
    first endpoint handle of wall [w1] starts a handle drag, and a second
    pointer-down, on the background, replaces it with a pan. *)
Lemma pointer_down_replaces_drag_counterexample :
  let parse := fun _ : string => @nil Dom.Node in
  let s1 := App.step parse None App.initialState
              (App.PointerDownHandle 0 App.EndA) in
  let ev := App.PointerDownCanvas (Some "background"%string) 5 5 in
  App.reachable parse s1
  /\ App.dragRef s1 = App.DragHandle "w1" App.EndA
  /\ App.isPointerDown ev = true
  /\ App.dragRef (App.step parse None s1 ev)
     = App.DragPan (Types.mkPt 5 5) (Types.mkView 0 0 1)
  /\ App.dragRef (App.step parse None s1 ev) <> App.dragRef s1.
Proof.
  cbn. repeat split.
  - apply (App.reach_step _ None App.initialState
             (App.PointerDownHandle 0 App.EndA)), App.reach_init.
  - discriminate.
Qed.

(** ** Loading a document (App.tsx, [onLoadFile]) *)

Section LoadFacts.

Import Types Geometry Js Encode App Spec.

Variable JSON_parse : string -> result value.

Lemma truthy_not_nullish (v : value) : truthy v = true -> nullish v = false.
Proof. destruct v; cbn; intros H; (reflexivity || discriminate). Qed.

Lemma optDot_not_nullish (v : value) (k : string) :
  nullish v = false -> optDot v k = get v k.
Proof. unfold optDot. now intros ->. Qed.

Lemma dot_not_nullish (v : value) (k : string) :
  nullish v = false -> dot v k = Ok (get v k).
Proof. unfold dot. now intros ->. Qed.

Lemma truthy_optDot (v : value) (k : string) :
  truthy (optDot v k) = true -> nullish v = false.
Proof.
  unfold optDot. destruct (nullish v); [discriminate | reflexivity].
Qed.

(** What [onLoadFile] does, case by case: it throws, leaving every cell
    as it was, when the text does not decode or the decoded value has no
    truthy [plan]; otherwise it returns, having written the four cells.
    No property read in it throws. *)
Lemma onLoadFile_run (text : string) (c : Cells) :
  onLoadFile JSON_parse text c =
  match JSON_parse text with
  | Throw e => (c, Throw e)
  | Ok parsed =>
      if truthy (optDot parsed "plan") then
        (mkCells (get parsed "plan")
                 (coalesce (get parsed "view") defaultView)
                 (coalesce (get parsed "prompt") (Str ""))
                 (loadedSelection parsed),
         Ok tt)
      else (c, Throw (ErrorMsg "Invalid file"))
  end.
Proof.
  unfold onLoadFile, bindA, lift.
  destruct (JSON_parse text) as [parsed | e]; [|reflexivity].
  destruct (truthy (optDot parsed "plan")) eqn:Hplan; [|reflexivity].
  cbn [negb].
  pose proof (truthy_optDot _ _ Hplan) as Hparsed.
  rewrite (optDot_not_nullish _ _ Hparsed) in Hplan.
  pose proof (truthy_not_nullish _ Hplan) as Hp.
  rewrite !(dot_not_nullish parsed) by exact Hparsed.
  rewrite !(dot_not_nullish (get parsed "plan")) by exact Hp.
  unfold loadedSelection, setPlan, setView, setPrompt, setSelection; cbn.
  destruct (truthy (optDot (optIndex0 (get (get parsed "plan") "walls")) "id"))
    eqn:Hid; [|reflexivity].
  pose proof (truthy_optDot _ _ Hid) as Hw0.
  assert (Hws : nullish (get (get parsed "plan") "walls") = false).
  { unfold optIndex0 in Hw0.
    destruct (nullish (get (get parsed "plan") "walls"));
      [discriminate | reflexivity]. }
  unfold index0. rewrite Hws.
  unfold optIndex0 in Hw0. rewrite Hws in Hw0.
  rewrite (dot_not_nullish _ _ Hw0). reflexivity.
Qed.

(** A failed load changes no cell. *)
Lemma onLoadFile_throw_unchanged (text : string) (c c' : Cells) (e : Error) :
  onLoadFile JSON_parse text c = (c', Throw e) -> c' = c.
Proof.
  rewrite onLoadFile_run.
  destruct (JSON_parse text) as [parsed | e0].
  - destruct (truthy (optDot parsed "plan")); intros H; inversion H;
      reflexivity.
  - intros H; inversion H; reflexivity.
Qed.

(** A load that returns installed the document's view as it is, or the
    default view when the document has none. *)
Lemma onLoadFile_view_verbatim (text : string) (c c' : Cells) :
  onLoadFile JSON_parse text c = (c', Ok tt) ->
  exists parsed,
    JSON_parse text = Ok parsed
    /\ c_view c' = coalesce (get parsed "view") defaultView
    /\ c_prompt c' = coalesce (get parsed "prompt") (Str "").
Proof.
  rewrite onLoadFile_run.
  destruct (JSON_parse text) as [parsed | e]; [|discriminate].
  destruct (truthy (optDot parsed "plan")); [|discriminate].
  intros H; inversion H; subst c'. exists parsed. now repeat split.
Qed.

End LoadFacts.

Section ViewScale.

Import Types Geometry Js Encode App Spec.

(** C2, as the code has it.  Wheel zoom clamps the scale to [0.2, 6] and
    pan and add-symbol keep the scale they find, so every state the canvas
    reaches from the initial one through its pointer, wheel and add-symbol
    events has its scale in [0.2, 6].  Loading a document is not such a
    site: a load that succeeds installs the document's [view] as it is
    (the default view, of scale 1, when the document has none), without
    clamping. *)
Theorem scale_clamped_on_canvas_not_on_load :
  (forall (parseFromString : string -> Dom.Document) (s : State),
      reachable parseFromString s ->
      2 / 10 <= view_scale (view s) <= 6)
  /\ (forall (JSON_parse : string -> result value) (text : string)
             (c c' : Cells),
         onLoadFile JSON_parse text c = (c', Ok tt) ->
         exists parsed,
           JSON_parse text = Ok parsed
           /\ c_view c' = coalesce (get parsed "view")
                            (js_of_view (mkView 0 0 1))).
Proof.
  split.
  - intros parseFromString s Hs.
    exact (proj1 (reachable_scaleInvariant parseFromString s Hs)).
  - intros JSON_parse text c c' Hload.
    destruct (onLoadFile_view_verbatim JSON_parse text c c' Hload)
      as [parsed [Hp [Hv _]]].
    exists parsed. now split.
Qed.

Lemma scale_clamped_on_canvas_not_on_load_witness :
  let parse := fun _ : string => @nil Dom.Node in
  let s := step parse (Some (mkRect 0 0)) initialState (Wheel 300 200 (-1)) in
  reachable parse s /\ 2 / 10 <= view_scale (view s) <= 6.
Proof.
  intros parse s.
  assert (Hs : reachable parse s) by (apply reach_step, reach_init).
  split; [exact Hs|].
  exact (proj1 scale_clamped_on_canvas_not_on_load parse s Hs).
Defined.

(** C2, as stated, fails at document load: loading a document whose view
    has scale 100 succeeds and leaves a view of scale 100 in the view
    cell. *)
Lemma load_scale_counterexample :
  let parse := fun _ : string => Ok zoomedDocument in
  let after := onLoadFile parse "" (cellsOf initialState "") in
  snd after = Ok tt
  /\ c_view (fst after) = js_of_view (mkView 0 0 100)
  /\ ~ (2 / 10 <= view_scale (mkView 0 0 100) <= 6).
Proof.
  cbn zeta. rewrite onLoadFile_run. cbn.
  repeat split. lra.
Qed.

End ViewScale.

Section LoadValidation.

Import Types Geometry Js Encode App Spec.

(** C6 at its failing input.  The decoded document [{ plan: {} }] has no
    [plan.walls], yet [onLoadFile] does not throw: it replaces the plan by
    the empty object, the view by the default view, the prompt by the empty
    string and the selection by [null]. *)
Theorem onLoadFile_accepts_plan_without_walls :
  let parse := fun _ : string => Ok planWithoutWalls in
  optDot (optDot planWithoutWalls "plan") "walls" = Undefined
  /\ onLoadFile parse (withQuotes "{'plan':{}}") (cellsOf initialState "")
     = (mkCells (Obj []) (js_of_view (mkView 0 0 1)) (Str "") Null, Ok tt).
Proof.
  cbn zeta. split; [reflexivity|].
  rewrite onLoadFile_run. reflexivity.
Qed.

End LoadValidation.

(** ** Plan generation (planGenerator.ts, [generatePlanFromText]) *)

Section Generation.

Import Types Js Encode PlanGenerator Spec.

Lemma fallback_rectangle : rectangleWithPartition fallback.
Proof.
  exists 120, 120, 720, 540, 420. repeat split; lra.
Qed.

(** C4.  Whenever the generation request fails (the request rejects, the
    status is not a success, the body does not decode, or the decoded body
    has no [plan.walls]), [generatePlanFromText] returns the fallback plan,
    which is four walls around a rectangle, one partition across it and no
    assets.  The function has no throwing outcome: its [try] covers the
    whole request. *)
Theorem generatePlanFromText_failure_gives_fallback
    (fetch : string -> result Response) (prompt : string) :
  RequestFailed fetch prompt ->
  generatePlanFromText fetch prompt = js_of_plan fallback
  /\ rectangleWithPartition fallback.
Proof.
  intros Hfail. split; [|apply fallback_rectangle].
  unfold generatePlanFromText, bind.
  destruct Hfail as [e He | res Hres Hok | res e Hres Hjson
                    | res data Hres Hjson Hwalls].
  - now rewrite He.
  - now rewrite Hres, Hok.
  - rewrite Hres. destruct (ok res); [|reflexivity].
    now rewrite Hjson.
  - rewrite Hres. destruct (ok res); [|reflexivity].
    rewrite Hjson.
    destruct (optDot (optDot data "plan") "walls"); (discriminate || reflexivity).
Qed.

Lemma generatePlanFromText_failure_gives_fallback_witness :
  generatePlanFromText (fun _ => Throw TypeError) "a flat" = js_of_plan fallback.
Proof.
  refine (proj1 (generatePlanFromText_failure_gives_fallback
                   (fun _ => Throw TypeError) "a flat" _)).
  now apply (network_failure _ _ TypeError).
Defined.

End Generation.

(** ** The symbol importer (svgParser.ts, [parseSvgText]) *)

Section Importer.

Import Js JsNumber JsString Dom SvgParser Spec.

(** *** Numbers *)

Lemma gt0_Fin (r : R) : gt0 (Fin r) = true <-> 0 < r.
Proof.
  cbn. destruct (Rlt_dec 0 r); split; intros H;
    (assumption || reflexivity || discriminate || contradiction).
Qed.

Lemma gt0_zero : gt0 (Fin 0) = false.
Proof. cbn. destruct (Rlt_dec 0 0); [lra | reflexivity]. Qed.

Lemma isFinite_Fin (n : num) : isFinite n = true -> exists r, n = Fin r.
Proof. destruct n; cbn; intros H; try discriminate. now eexists. Qed.

Lemma finite_positive (n : num) :
  isFinite n = true -> gt0 n = true -> exists r, n = Fin r /\ 0 < r.
Proof.
  intros Hf Hg. destruct (isFinite_Fin n Hf) as [r ->].
  exists r. split; [reflexivity | now apply gt0_Fin].
Qed.

Lemma overflowAt_large : 1000000 < overflowAt.
Proof. unfold overflowAt. apply IZR_lt. vm_compute. reflexivity. Qed.

Lemma underflowAt_small : 0 < underflowAt < 1.
Proof.
  unfold underflowAt.
  assert (Hbig : 1 < IZR (2 ^ 1075)) by (apply IZR_lt; vm_compute; reflexivity).
  split.
  - apply Rinv_0_lt_compat. lra.
  - rewrite <- Rinv_1. apply Rinv_lt_contravar; lra.
Qed.

Lemma ofReal_zero : ofReal 0 = Fin 0.
Proof.
  unfold ofReal. pose proof overflowAt_large. pose proof underflowAt_small.
  rewrite Rabs_R0.
  destruct (Rle_dec overflowAt 0); [lra|].
  destruct (Rle_dec 0 underflowAt); [reflexivity | lra].
Qed.

Lemma ofReal_moderate (r : R) : 1 <= r <= 1000000 -> ofReal r = Fin r.
Proof.
  intros Hr. unfold ofReal.
  pose proof overflowAt_large. pose proof underflowAt_small.
  rewrite Rabs_pos_eq by lra.
  destruct (Rle_dec overflowAt r); [lra|].
  destruct (Rle_dec r underflowAt); [lra | reflexivity].
Qed.

(** *** Strings *)

Lemma dropWhile_snoc_nonempty (p : ascii -> bool) (l : list ascii) (c : ascii) :
  p c = false -> dropWhile p (l ++ [c]) <> [].
Proof.
  intros Hc. induction l as [|a l IH]; cbn.
  - rewrite Hc. discriminate.
  - destruct (p a); [exact IH | discriminate].
Qed.

Lemma trimChars_nonempty (c : ascii) (l : list ascii) :
  isWhiteSpace c = false -> trimChars (c :: l) <> [].
Proof.
  intros Hc. unfold trimChars, trimStartChars. cbn [dropWhile]. rewrite Hc.
  cbn [rev]. intros Hnil.
  apply (f_equal (@rev ascii)) in Hnil. rewrite rev_involutive in Hnil.
  revert Hnil. now apply dropWhile_snoc_nonempty.
Qed.

Lemma ofChars_nonempty (l : list ascii) : l <> [] -> nonEmpty (ofChars l) = true.
Proof. destruct l; [contradiction | reflexivity]. Qed.

Lemma trim_nonempty (c : ascii) (s : string) :
  isWhiteSpace c = false -> nonEmpty (trim (String c s)) = true.
Proof.
  intros Hc. unfold trim. apply ofChars_nonempty.
  now apply trimChars_nonempty.
Qed.

Lemma nonEmpty_false (s : string) : nonEmpty s = false -> s = EmptyString.
Proof. destruct s; [reflexivity | discriminate]. Qed.

Lemma outerMarkup_element_head (tag : string) (attrs : list (string * string))
    (children : list Node) :
  exists rest, outerMarkup (Element tag attrs children) = String "<" rest.
Proof. destruct children; cbn; eexists; reflexivity. Qed.

(** *** The size *)

Lemma viewBoxSize_finite (vb : option string) :
  isFinite (fst (viewBoxSize vb)) = true
  /\ isFinite (snd (viewBoxSize vb)) = true.
Proof.
  unfold viewBoxSize. destruct vb as [text|]; [|now split].
  destruct (nonEmpty text); [|now split].
  destruct (viewBoxParts text) as [|a [|b [|c [|d [|e rest]]]]];
    try (now split).
  cbn [List.length Nat.eqb andb].
  destruct (forallb isFinite [a; b; c; d]) eqn:Hall; [|now split].
  cbn in Hall. cbn.
  destruct (isFinite a), (isFinite b), (isFinite c), (isFinite d);
    try discriminate. now split.
Qed.

Lemma resolveSize_cases (svgEl : Node) (a b : num) :
  resolveSize svgEl (a, b)
  = if (gt0 a && gt0 b)%bool then (a, b) else explicitOrDefaultSize svgEl.
Proof.
  unfold resolveSize, explicitOrDefaultSize, explicitSize, attributeOrEmpty.
  destruct (gt0 a && gt0 b)%bool; cbn [negb]; [reflexivity|].
  destruct (getAttribute svgEl "width"), (getAttribute svgEl "height");
    match goal with
    | |- context [(isFinite ?w && isFinite ?h && gt0 ?w && gt0 ?h)%bool] =>
        destruct (isFinite w && isFinite h && gt0 w && gt0 h)%bool
    end; reflexivity.
Qed.

Lemma explicitOrDefaultSize_positive (svgEl : Node) :
  exists w h : R,
    explicitOrDefaultSize svgEl = (Fin w, Fin h) /\ 0 < w /\ 0 < h.
Proof.
  unfold explicitOrDefaultSize, explicitSize.
  set (w := parseFloat (attributeOrEmpty svgEl "width")).
  set (h := parseFloat (attributeOrEmpty svgEl "height")).
  destruct (isFinite w) eqn:Hfw; cbn [andb];
    [|exists 100, 100; repeat split; lra].
  destruct (isFinite h) eqn:Hfh; cbn [andb];
    [|exists 100, 100; repeat split; lra].
  destruct (gt0 w) eqn:Hgw; cbn [andb];
    [|exists 100, 100; repeat split; lra].
  destruct (gt0 h) eqn:Hgh; [|exists 100, 100; repeat split; lra].
  destruct (finite_positive w Hfw Hgw) as [rw [-> Hw]].
  destruct (finite_positive h Hfh Hgh) as [rh [-> Hh]].
  now exists rw, rh.
Qed.

Lemma resolveSize_positive (svgEl : Node) (size : num * num) :
  isFinite (fst size) = true -> isFinite (snd size) = true ->
  exists w h : R,
    resolveSize svgEl size = (Fin w, Fin h) /\ 0 < w /\ 0 < h.
Proof.
  destruct size as [a b]; cbn [fst snd]; intros Ha Hb.
  rewrite resolveSize_cases.
  destruct (gt0 a) eqn:Hga; cbn [andb];
    [|apply explicitOrDefaultSize_positive].
  destruct (gt0 b) eqn:Hgb; [|apply explicitOrDefaultSize_positive].
  destruct (finite_positive a Ha Hga) as [w [-> Hw]].
  destruct (finite_positive b Hb Hgb) as [h [-> Hh]].
  now exists w, h.
Qed.

(** The size the code computes is the size the specification describes. *)
Lemma resolveSize_intrinsicSize (svgEl : Node) :
  resolveSize svgEl (viewBoxSize (getAttribute svgEl "viewBox"))
  = intrinsicSize svgEl.
Proof.
  unfold intrinsicSize, viewBoxTuple, viewBoxSize.
  assert (Hzero : resolveSize svgEl (Fin 0, Fin 0)
                  = explicitOrDefaultSize svgEl).
  { rewrite resolveSize_cases, gt0_zero. reflexivity. }
  destruct (getAttribute svgEl "viewBox") as [text|]; [|exact Hzero].
  destruct (nonEmpty text) eqn:Htext.
  - destruct (viewBoxParts text) as [|a [|b [|c [|d [|e rest]]]]];
      try exact Hzero.
    cbn [List.length Nat.eqb andb].
    destruct (forallb isFinite [a; b; c; d]); [|exact Hzero].
    cbn [nth]. apply resolveSize_cases.
  - apply nonEmpty_false in Htext. subst text.
    exact Hzero.
Qed.

(** *** The example of tests.ts *)

Lemma toNumber_scanned (s : string) (c : ascii) (l : list ascii) (lit : literal) :
  trimChars (chars s) = c :: l ->
  scanDecimal (c :: l) = Some (lit, []) ->
  toNumber s = numOfLiteral lit.
Proof. unfold toNumber. now intros -> ->. Qed.

Lemma toNumber_0 : toNumber "0" = Fin 0.
Proof.
  rewrite (toNumber_scanned "0" "0" [] (LitDecimal false 0 0))
    by reflexivity.
  cbn [numOfLiteral]. change (decimalValue 0 0) with (IZR 0).
  apply ofReal_zero.
Qed.

Lemma toNumber_10 : toNumber "10" = Fin 10.
Proof.
  rewrite (toNumber_scanned "10" "1" ["0"%char] (LitDecimal false 10 0))
    by reflexivity.
  cbn [numOfLiteral]. change (decimalValue 10 0) with (IZR 10).
  apply ofReal_moderate. lra.
Qed.

Lemma toNumber_5 : toNumber "5" = Fin 5.
Proof.
  rewrite (toNumber_scanned "5" "5" [] (LitDecimal false 5 0))
    by reflexivity.
  cbn [numOfLiteral]. change (decimalValue 5 0) with (IZR 5).
  apply ofReal_moderate. lra.
Qed.

Lemma viewBoxSize_example : viewBoxSize (Some "0 0 10 5"%string) = (Fin 10, Fin 5).
Proof.
  unfold viewBoxSize, viewBoxParts.
  change (nonEmpty "0 0 10 5") with true. cbv iota.
  change (filter nonEmpty (map trim (splitSpacesCommas "0 0 10 5")))
    with ["0"; "0"; "10"; "5"]%string.
  cbn [map]. rewrite toNumber_0, toNumber_10, toNumber_5.
  reflexivity.
Qed.

Lemma resolveSize_example (svgEl : Node) :
  resolveSize svgEl (Fin 10, Fin 5) = (Fin 10, Fin 5).
Proof.
  rewrite resolveSize_cases.
  rewrite (proj2 (gt0_Fin 10)) by lra.
  rewrite (proj2 (gt0_Fin 5)) by lra.
  reflexivity.
Qed.

Lemma parseSvgText_succeeds
    (parseFromString : string -> Document) (svgText : string) (svgEl : Node) :
  querySelector "parsererror" (parseFromString (trim svgText)) = None ->
  querySelector "svg" (parseFromString (trim svgText)) = Some svgEl ->
  nonEmpty (trim (innerHTML (removeScripts svgEl))) = true ->
  parseSvgText parseFromString svgText
  = Ok (mkParsed (innerHTML (removeScripts svgEl))
                 (fst (intrinsicSize svgEl))
                 (snd (intrinsicSize svgEl))).
Proof.
  intros Herr Hsvg Hinner.
  unfold parseSvgText. rewrite Herr, Hsvg.
  rewrite resolveSize_intrinsicSize.
  destruct (intrinsicSize svgEl) as [w h]. now rewrite Hinner.
Qed.

(** C5.  The importer succeeds whenever the document has no parse error, has
    an [svg] element and that element has content left once its scripts are
    removed, whatever its size attributes say; the size it returns is then
    the one the specification describes: components 3 and 4 of a [viewBox]
    of four finite numbers when both are positive, else the [width] and
    [height] attributes when both are finite and positive, else 100 by 100.
    In particular an [svg] element with [viewBox="0 0 10 5"] and one child
    element that is not a script gives 10 by 5 and a non-empty [inner]. *)
Theorem parseSvgText_intrinsic_size :
  (forall (parseFromString : string -> Document) (svgText : string)
          (svgEl : Node),
      querySelector "parsererror" (parseFromString (trim svgText)) = None ->
      querySelector "svg" (parseFromString (trim svgText)) = Some svgEl ->
      nonEmpty (trim (innerHTML (removeScripts svgEl))) = true ->
      parseSvgText parseFromString svgText
      = Ok (mkParsed (innerHTML (removeScripts svgEl))
                     (fst (intrinsicSize svgEl))
                     (snd (intrinsicSize svgEl))))
  /\ (forall (parseFromString : string -> Document) (svgText : string)
             (attrs : list (string * string)) (tag : string)
             (childAttrs : list (string * string)) (grandchildren : list Node),
         querySelector "parsererror" (parseFromString (trim svgText)) = None ->
         querySelector "svg" (parseFromString (trim svgText))
         = Some (Element "svg" attrs [Element tag childAttrs grandchildren]) ->
         attribute "viewBox" attrs = Some "0 0 10 5"%string ->
         tag <> "script"%string ->
         exists inner : string,
           parseSvgText parseFromString svgText
           = Ok (mkParsed inner (Fin 10) (Fin 5))
           /\ inner <> EmptyString).
Proof.
  split.
  - intros parseFromString svgText svgEl Herr Hsvg Hinner.
    now apply parseSvgText_succeeds.
  - intros parseFromString svgText attrs tag childAttrs grandchildren
           Herr Hsvg Hvb Htag.
    unfold parseSvgText. rewrite Herr, Hsvg.
    cbn [getAttribute]. rewrite Hvb, viewBoxSize_example, resolveSize_example.
    cbn [removeScripts isElementNamed].
    apply String.eqb_neq in Htag. rewrite Htag.
    unfold innerHTML. cbn [childNodes markupOfNodes].
    match goal with
    | |- context [outerMarkup (Element tag childAttrs ?cs)] =>
        destruct (outerMarkup_element_head tag childAttrs cs) as [rest Hrest]
    end.
    rewrite Hrest. cbn [append].
    rewrite trim_nonempty by reflexivity. cbn [negb].
    eexists. split; [reflexivity | discriminate].
Qed.

Lemma parseSvgText_intrinsic_size_witness :
  exists inner : string,
    parseSvgText (fun _ => exampleDocument) exampleSvgText
    = Ok (mkParsed inner (Fin 10) (Fin 5))
    /\ inner <> EmptyString.
Proof.
  refine (proj2 parseSvgText_intrinsic_size (fun _ => exampleDocument)
            exampleSvgText _ "rect"%string _ [] _ _ _ _).
  - reflexivity.
  - reflexivity.
  - reflexivity.
  - discriminate.
Defined.

Lemma parseSvgText_size_resolved
    (parseFromString : string -> Document) (svgText : string) (r : Parsed) :
  parseSvgText parseFromString svgText = Ok r ->
  exists svgEl : Node,
    querySelector "svg" (parseFromString (trim svgText)) = Some svgEl
    /\ (vbW r, vbH r)
       = resolveSize svgEl (viewBoxSize (getAttribute svgEl "viewBox")).
Proof.
  unfold parseSvgText.
  destruct (querySelector "parsererror" (parseFromString (trim svgText)));
    [discriminate|].
  destruct (querySelector "svg" (parseFromString (trim svgText)))
    as [svgEl|]; [|discriminate].
  destruct (resolveSize svgEl (viewBoxSize (getAttribute svgEl "viewBox")))
    as [w h] eqn:Hsize.
  destruct (nonEmpty (trim (innerHTML (removeScripts svgEl))));
    cbn [negb]; [|discriminate].
  intros H; inversion H; subst r. exists svgEl. now split.
Qed.

(** C10.  Whenever the importer returns, the size it returns is a pair of
    finite numbers, both strictly positive, whatever the [viewBox], [width]
    and [height] attributes hold. *)
Theorem parseSvgText_positive_size
    (parseFromString : string -> Document) (svgText : string) (r : Parsed) :
  parseSvgText parseFromString svgText = Ok r ->
  exists w h : R, vbW r = Fin w /\ vbH r = Fin h /\ 0 < w /\ 0 < h.
Proof.
  intros Hr.
  destruct (parseSvgText_size_resolved _ _ _ Hr) as [svgEl [_ Hsize]].
  destruct (viewBoxSize_finite (getAttribute svgEl "viewBox")) as [Hfw Hfh].
  destruct (resolveSize_positive svgEl _ Hfw Hfh) as [w [h [Hwh [Hw Hh]]]].
  rewrite Hwh in Hsize. inversion Hsize.
  now exists w, h.
Qed.

Lemma parseSvgText_bare_svg :
  parseSvgText (fun _ => [Element "svg" [] [Element "rect" [] []]])
    "<svg><rect/></svg>"
  = Ok (mkParsed "<rect/>" (Fin 100) (Fin 100)).
Proof.
  rewrite (parseSvgText_succeeds _ _
             (Element "svg" [] [Element "rect" [] []]))
    by reflexivity.
  unfold intrinsicSize, viewBoxTuple. cbn [getAttribute attribute].
  reflexivity.
Qed.

Lemma parseSvgText_positive_size_witness :
  exists w h : R,
    vbW (mkParsed "<rect/>" (Fin 100) (Fin 100)) = Fin w
    /\ vbH (mkParsed "<rect/>" (Fin 100) (Fin 100)) = Fin h
    /\ 0 < w /\ 0 < h.
Proof.
  exact (parseSvgText_positive_size _ _ _ parseSvgText_bare_svg).
Defined.

(** An asset the add-symbol action creates carries the importer's size, so
    its intrinsic box is positive on both axes. *)
Lemma addSymbol_asset_positive (parseFromString : string -> Document)
    (freshId : string) (s : App.State) (a : Types.SvgAsset) :
  In a (Types.assets (App.plan (App.addSymbol parseFromString freshId s))) ->
  In a (Types.assets (App.plan s))
  \/ (0 < Types.asset_vbW a /\ 0 < Types.asset_vbH a).
Proof.
  unfold App.addSymbol, bind.
  destruct (parseSvgText parseFromString App.TV_svg) as [parsed | e] eqn:Hp;
    cbn [tryCatch]; [|now left].
  cbn. intros Hin. apply in_app_or in Hin as [Hin | [<- | []]];
    [now left | right].
  destruct (parseSvgText_size_resolved _ _ _ Hp) as [svgEl [_ Hsize]].
  destruct (viewBoxSize_finite (getAttribute svgEl "viewBox")) as [Hfw Hfh].
  destruct (resolveSize_positive svgEl _ Hfw Hfh) as [w [h [Hwh [Hw Hh]]]].
  rewrite Hwh in Hsize. inversion Hsize as [[Hvw Hvh]].
  cbn. rewrite Hvw, Hvh. cbn. now split.
Qed.

End Importer.

(** ** More of geometry.ts *)

Section GeometryMore.

Import Types Geometry.

(** [dist] is a metric on points: symmetric, never negative, and zero
    exactly between a point and itself. *)
Theorem dist_metric (a b : Pt) :
  dist a b = dist b a
  /\ 0 <= dist a b
  /\ (dist a b = 0 <-> a = b).
Proof.
  unfold dist. repeat split.
  - replace (pt_x a - pt_x b) with (- (pt_x b - pt_x a)) by ring.
    replace (pt_y a - pt_y b) with (- (pt_y b - pt_y a)) by ring.
    apply hypot_opp.
  - apply hypot_nonneg.
  - intros H. apply hypot_zero_iff in H as [Hx Hy].
    apply pt_eq; lra.
  - intros ->. apply hypot_zero_iff. split; ring.
Qed.

(** [mid a b] is at half the distance [dist a b] from each end, so it is
    equidistant from both and lies on the segment between them. *)
Theorem mid_halves_segment (a b : Pt) :
  dist a (mid a b) = dist a b / 2
  /\ dist (mid a b) b = dist a b / 2
  /\ dist a (mid a b) + dist (mid a b) b = dist a b.
Proof.
  assert (Ha : dist a (mid a b) = dist a b / 2).
  { unfold dist, mid; cbn.
    replace (pt_x a - (pt_x a + pt_x b) / 2)
      with ((pt_x a - pt_x b) * / 2) by field.
    replace (pt_y a - (pt_y a + pt_y b) / 2)
      with ((pt_y a - pt_y b) * / 2) by field.
    rewrite hypot_scale by lra. field. }
  assert (Hb : dist (mid a b) b = dist a b / 2).
  { unfold dist, mid; cbn.
    replace ((pt_x a + pt_x b) / 2 - pt_x b)
      with ((pt_x a - pt_x b) * / 2) by field.
    replace ((pt_y a + pt_y b) / 2 - pt_y b)
      with ((pt_y a - pt_y b) * / 2) by field.
    rewrite hypot_scale by lra. field. }
  repeat split; [exact Ha | exact Hb |]. rewrite Ha, Hb. field.
Qed.

(** For [lo <= hi], [clamp] lands in [lo, hi], leaves a value of that range
    as it is and is idempotent; for an empty range ([hi < lo]) it returns
    [lo] whatever the value. *)
Theorem clamp_range_and_edges (n lo hi : R) :
  (lo <= hi ->
     lo <= clamp n lo hi <= hi
     /\ (lo <= n <= hi -> clamp n lo hi = n)
     /\ clamp (clamp n lo hi) lo hi = clamp n lo hi)
  /\ (hi < lo -> clamp n lo hi = lo).
Proof.
  assert (Hcases : forall m l h,
             clamp m l h = (if Rle_dec l (if Rle_dec h m then h else m)
                            then (if Rle_dec h m then h else m) else l))
    by reflexivity.
  split.
  - intros Hr. split; [|split].
    + rewrite Hcases. destruct (Rle_dec hi n), (Rle_dec lo _); lra.
    + intros Hn. rewrite Hcases.
      destruct (Rle_dec hi n), (Rle_dec lo _); lra.
    + rewrite (Hcases (clamp n lo hi)), (Hcases n).
      destruct (Rle_dec hi n) as [H1 | H1];
        destruct (Rle_dec lo _) as [H2 | H2];
        destruct (Rle_dec hi _) as [H3 | H3];
        destruct (Rle_dec lo _) as [H4 | H4]; lra.
  - intros Hr. rewrite Hcases.
    destruct (Rle_dec hi n), (Rle_dec lo _); lra.
Qed.

Lemma clamp_range_and_edges_witness :
  clamp 1 (2 / 10) 6 = 1 /\ clamp 9 6 (2 / 10) = 6.
Proof.
  split.
  - refine (proj1 (proj2 (proj1 (clamp_range_and_edges 1 (2 / 10) 6) _)) _);
      lra.
  - refine (proj2 (clamp_range_and_edges 9 6 (2 / 10)) _). lra.
Defined.

(** Pixels and meters convert back and forth without loss for a scale that
    is not zero. *)
Theorem px_meters_round_trip (v scalePxPerM : R) :
  scalePxPerM <> 0 ->
  pxToMeters (metersToPx v scalePxPerM) scalePxPerM = v
  /\ metersToPx (pxToMeters v scalePxPerM) scalePxPerM = v.
Proof.
  intros Hs. unfold pxToMeters, metersToPx. split; field; exact Hs.
Qed.

Lemma px_meters_round_trip_witness :
  pxToMeters (metersToPx 3 100) 100 = 3.
Proof.
  exact (proj1 (px_meters_round_trip 3 100 ltac:(lra))).
Defined.

(** Asking [setLengthFromA] for the length the wall already has gives back
    its endpoint [b], and asking for length 0 gives [a]; both hold for
    degenerate walls too. *)
Theorem setLengthFromA_same_length_and_zero (a b : Pt) :
  setLengthFromA a b (dist a b) = b
  /\ setLengthFromA a b 0 = a.
Proof.
  split.
  - unfold setLengthFromA, dist.
    replace (pt_x a - pt_x b) with (- (pt_x b - pt_x a)) by ring.
    replace (pt_y a - pt_y b) with (- (pt_y b - pt_y a)) by ring.
    rewrite hypot_opp.
    set (dx := pt_x b - pt_x a). set (dy := pt_y b - pt_y a).
    destruct (Req_dec_T (JsMath.hypot dx dy) 0) as [H0 | Hn].
    + apply hypot_zero_iff in H0 as [Hx Hy].
      apply pt_eq; cbn; unfold dx, dy in *; rewrite ?Hx, ?Hy; nra.
    + rewrite (or_else_nonzero _ 1 Hn).
      apply pt_eq; cbn; unfold dx, dy; field; exact Hn.
  - unfold setLengthFromA. apply pt_eq; cbn; unfold Rdiv; ring.
Qed.

Lemma round_plus_IZR (x : R) (k : Z) :
  JsMath.round (x + IZR k) = JsMath.round x + IZR k.
Proof.
  destruct (round_is_integer x) as [j Hj].
  pose proof (round_bounds x) as Hb. rewrite Hj in *.
  rewrite <- plus_IZR. apply round_unique. rewrite plus_IZR. lra.
Qed.

(** Snapping commutes with moving a point by whole grid cells: for
    integers [i] and [j], the point shifted by [(i * grid, j * grid)] snaps
    to the snapped point shifted by the same amount. *)
Theorem snapToGrid_shift (p : Pt) (grid : R) (i j : Z) :
  grid <> 0 ->
  snapToGrid (mkPt (pt_x p + IZR i * grid) (pt_y p + IZR j * grid)) grid
  = mkPt (pt_x (snapToGrid p grid) + IZR i * grid)
         (pt_y (snapToGrid p grid) + IZR j * grid).
Proof.
  intros Hg. unfold snapToGrid; cbn.
  replace ((pt_x p + IZR i * grid) / grid) with (pt_x p / grid + IZR i)
    by (field; exact Hg).
  replace ((pt_y p + IZR j * grid) / grid) with (pt_y p / grid + IZR j)
    by (field; exact Hg).
  rewrite !round_plus_IZR. f_equal; ring.
Qed.

Lemma snapToGrid_shift_witness :
  snapToGrid (mkPt (17 + IZR 2 * 20) (23 + IZR (-1) * 20)) 20
  = mkPt (pt_x (snapToGrid (mkPt 17 23) 20) + IZR 2 * 20)
         (pt_y (snapToGrid (mkPt 17 23) 20) + IZR (-1) * 20).
Proof.
  exact (snapToGrid_shift (mkPt 17 23) 20 2 (-1) ltac:(lra)).
Defined.

End GeometryMore.

(** ** More of the camera (App.tsx) *)

Section CameraMore.

Import Types Geometry App.

Lemma view_eq (v w : ViewState) :
  view_x v = view_x w -> view_y v = view_y w -> view_scale v = view_scale w ->
  v = w.
Proof. destruct v, w; cbn; intros -> -> ->; reflexivity. Qed.

(** For a view whose scale is not zero, the canvas transform and the
    conversion the handlers use are inverse to each other, and
    [clientToWorld] is that conversion after the canvas offset is taken
    off. *)
Theorem screen_world_inverse (v : ViewState) (p : Pt) :
  view_scale v <> 0 ->
  screenToWorld v (worldToScreen v p) = p
  /\ worldToScreen v (screenToWorld v p) = p
  /\ forall rect : Rect,
       clientToWorld (Some rect) v
         (mkPt (pt_x (worldToScreen v p) + rect_left rect)
               (pt_y (worldToScreen v p) + rect_top rect))
       = p.
Proof.
  intros Hs. unfold screenToWorld, worldToScreen, clientToWorld.
  repeat split; intros; apply pt_eq; cbn; field; exact Hs.
Qed.

Lemma screen_world_inverse_witness :
  screenToWorld (mkView 10 20 2) (worldToScreen (mkView 10 20 2) (mkPt 3 4))
  = mkPt 3 4.
Proof.
  refine (proj1 (screen_world_inverse (mkView 10 20 2) (mkPt 3 4) _)).
  cbn. lra.
Defined.

Lemma clamp_inside (n lo hi : R) : lo <= n <= hi -> clamp n lo hi = n.
Proof.
  intros H. unfold clamp, JsMath.max, JsMath.min, Rmax, Rmin.
  destruct (Rle_dec hi n), (Rle_dec lo _); lra.
Qed.

Lemma zoomView_in (v : ViewState) (p : Pt) (deltaY : R) :
  deltaY <= 0 ->
  view_scale (zoomView v p deltaY)
  = clamp (view_scale v * (108 / 100)) (2 / 10) 6.
Proof.
  intros Hd. unfold zoomView; cbn.
  destruct (Rlt_dec 0 deltaY); [lra|].
  destruct (Rlt_dec 0 1); [reflexivity | lra].
Qed.

Lemma zoomView_out (v : ViewState) (p : Pt) (deltaY : R) :
  0 < deltaY ->
  view_scale (zoomView v p deltaY)
  = clamp (view_scale v * (1 / (108 / 100))) (2 / 10) 6.
Proof.
  intros Hd. unfold zoomView; cbn.
  destruct (Rlt_dec 0 deltaY); [|lra].
  destruct (Rlt_dec 0 (-1)); [lra | reflexivity].
Qed.

Lemma zoomView_position (v : ViewState) (p : Pt) (deltaY : R) :
  view_x (zoomView v p deltaY)
  = pt_x p - (pt_x p - view_x v) / view_scale v
             * view_scale (zoomView v p deltaY)
  /\ view_y (zoomView v p deltaY)
     = pt_y p - (pt_y p - view_y v) / view_scale v
                * view_scale (zoomView v p deltaY).
Proof. split; reflexivity. Qed.

(** One wheel notch in and one out at the same pointer position cancel,
    in either order, as long as neither step is clamped. *)
Theorem zoom_in_out_cancel (v : ViewState) (p : Pt) (dIn dOut : R) :
  dIn <= 0 -> 0 < dOut ->
  (2 / 10 <= view_scale v -> view_scale v * (108 / 100) <= 6 ->
     zoomView (zoomView v p dIn) p dOut = v)
  /\ (view_scale v <= 6 -> 2 / 10 <= view_scale v / (108 / 100) ->
        zoomView (zoomView v p dOut) p dIn = v).
Proof.
  intros Hin Hout. split.
  - intros Hlo Hhi.
    assert (H1 : view_scale (zoomView v p dIn) = view_scale v * (108 / 100)).
    { rewrite zoomView_in by exact Hin. apply clamp_inside. lra. }
    assert (H2 : view_scale (zoomView (zoomView v p dIn) p dOut)
                 = view_scale v).
    { rewrite zoomView_out by exact Hout. rewrite H1.
      replace (view_scale v * (108 / 100) * (1 / (108 / 100)))
        with (view_scale v) by field.
      apply clamp_inside. lra. }
    destruct (zoomView_position (zoomView v p dIn) p dOut) as [Hx Hy].
    destruct (zoomView_position v p dIn) as [Hx1 Hy1].
    apply view_eq; [| |exact H2].
    + rewrite Hx, H2, Hx1, H1. field. lra.
    + rewrite Hy, H2, Hy1, H1. field. lra.
  - intros Hhi Hlo.
    assert (H1 : view_scale (zoomView v p dOut)
                 = view_scale v * (1 / (108 / 100))).
    { rewrite zoomView_out by exact Hout. apply clamp_inside.
      unfold Rdiv in *. lra. }
    assert (H2 : view_scale (zoomView (zoomView v p dOut) p dIn)
                 = view_scale v).
    { rewrite zoomView_in by exact Hin. rewrite H1.
      replace (view_scale v * (1 / (108 / 100)) * (108 / 100))
        with (view_scale v) by field.
      apply clamp_inside. unfold Rdiv in *. lra. }
    destruct (zoomView_position (zoomView v p dOut) p dIn) as [Hx Hy].
    destruct (zoomView_position v p dOut) as [Hx1 Hy1].
    assert (Hpos : 0 < view_scale v) by (unfold Rdiv in *; lra).
    apply view_eq; [| |exact H2].
    + rewrite Hx, H2, Hx1, H1. field. lra.
    + rewrite Hy, H2, Hy1, H1. field. lra.
Qed.

Lemma zoom_in_out_cancel_witness :
  zoomView (zoomView (mkView 0 0 1) (mkPt 300 200) (-1)) (mkPt 300 200) 1
  = mkView 0 0 1.
Proof.
  refine (proj1 (zoom_in_out_cancel (mkView 0 0 1) (mkPt 300 200) (-1) 1
                   _ _) _ _); cbn; lra.
Defined.

End CameraMore.

(** ** More of the plan updates (App.tsx) *)

Section PlanUpdatesMore.

Import Types Geometry App Editor Spec.

Lemma setEndpoint_id (w : Wall) (which : Endpoint) (next : Pt) :
  wall_id (setEndpoint w which next) = wall_id w.
Proof. now destruct which. Qed.

Lemma setEndpoint_twice (w : Wall) (which : Endpoint) (n1 n2 : Pt) :
  setEndpoint (setEndpoint w which n1) which n2 = setEndpoint w which n2.
Proof. now destruct which. Qed.

Lemma endpointOf_setEndpoint (w : Wall) (which : Endpoint) (next : Pt) :
  endpointOf (setEndpoint w which next) which = next.
Proof. now destruct which. Qed.

Lemma updateWallEndpoint_ids id which next p :
  wallIds (updateWallEndpoint id which next p) = wallIds p
  /\ assets (updateWallEndpoint id which next p) = assets p.
Proof.
  unfold wallIds, updateWallEndpoint; cbn. split; [|reflexivity].
  rewrite map_map. apply map_ext. intros w.
  destruct (String.eqb (wall_id w) id); [apply setEndpoint_id | reflexivity].
Qed.

Lemma updateWallEndpoint_twice id which n1 n2 p :
  updateWallEndpoint id which n2 (updateWallEndpoint id which n1 p)
  = updateWallEndpoint id which n2 p.
Proof.
  unfold updateWallEndpoint; cbn. f_equal.
  rewrite map_map. apply map_ext. intros w.
  destruct (String.eqb (wall_id w) id) eqn:Hid.
  - now rewrite setEndpoint_id, Hid, setEndpoint_twice.
  - now rewrite Hid.
Qed.

Lemma updateWallEndpoint_In id which next p w' :
  In w' (walls (updateWallEndpoint id which next p)) ->
  exists w, In w (walls p)
            /\ w' = (if String.eqb (wall_id w) id
                     then setEndpoint w which next else w).
Proof.
  unfold updateWallEndpoint; cbn. intros Hin.
  apply in_map_iff in Hin as [w [Hw Hin]]. now exists w.
Qed.

(** [updateWallEndpoint] keeps the walls' ids in their order and the
    assets; afterwards every wall with the given id has the endpoint at the
    new point; writing the same endpoint twice keeps the last point, and
    writing the two endpoints of a wall can be done in either order. *)
Theorem updateWallEndpoint_writes_endpoint
    (p : Plan) (id : string) (which : Endpoint) (next : Pt) :
  map wall_id (walls (updateWallEndpoint id which next p))
  = map wall_id (walls p)
  /\ assets (updateWallEndpoint id which next p) = assets p
  /\ (forall w, In w (walls (updateWallEndpoint id which next p)) ->
                wall_id w = id -> endpointOf w which = next)
  /\ (forall other,
         updateWallEndpoint id which next
           (updateWallEndpoint id which other p)
         = updateWallEndpoint id which next p)
  /\ (forall na nb,
         updateWallEndpoint id EndA na (updateWallEndpoint id EndB nb p)
         = updateWallEndpoint id EndB nb (updateWallEndpoint id EndA na p)).
Proof.
  destruct (updateWallEndpoint_ids id which next p) as [Hids Hassets].
  split; [exact Hids|]. split; [exact Hassets|]. split; [|split].
  - intros w' Hin Hid.
    apply updateWallEndpoint_In in Hin as [w [_ ->]].
    destruct (String.eqb (wall_id w) id) eqn:Hw.
    + apply endpointOf_setEndpoint.
    + apply String.eqb_neq in Hw. contradiction.
  - intros other. apply updateWallEndpoint_twice.
  - intros na nb. unfold updateWallEndpoint; cbn. f_equal.
    rewrite !map_map. apply map_ext. intros w.
    destruct (String.eqb (wall_id w) id) eqn:Hw; cbn; rewrite Hw;
      reflexivity.
Qed.

Lemma updateAsset_twice id x1 y1 x2 y2 p :
  updateAsset id x2 y2 (updateAsset id x1 y1 p) = updateAsset id x2 y2 p.
Proof.
  unfold updateAsset; cbn. f_equal.
  rewrite map_map. apply map_ext. intros a.
  destruct (String.eqb (asset_id a) id) eqn:Hid; cbn; now rewrite Hid.
Qed.

Lemma updateAsset_In id x y p a' :
  In a' (assets (updateAsset id x y p)) ->
  exists a, In a (assets p)
            /\ sameButPosition a a'
            /\ (if String.eqb (asset_id a) id
                then asset_x a' = x /\ asset_y a' = y
                else a' = a).
Proof.
  unfold updateAsset; cbn. intros Hin.
  apply in_map_iff in Hin as [a [Ha Hin]]. exists a.
  split; [exact Hin|]. subst a'.
  destruct (String.eqb (asset_id a) id); cbn;
    unfold sameButPosition; cbn; repeat split; reflexivity.
Qed.

Lemma updateAsset_ids id x y p :
  assetIds (updateAsset id x y p) = assetIds p
  /\ walls (updateAsset id x y p) = walls p.
Proof.
  unfold assetIds, updateAsset; cbn. split; [|reflexivity].
  rewrite map_map. apply map_ext. intros a.
  now destruct (String.eqb (asset_id a) id).
Qed.

(** [updateAsset] moves the assets with the given id and nothing else: the
    walls stay, every asset of the result is an asset of the plan with at
    most its position changed, the ones with the given id are at the new
    position, and with no asset of that id the plan is returned as it
    was. *)
Theorem updateAsset_moves_only (p : Plan) (id : string) (x y : R) :
  walls (updateAsset id x y p) = walls p
  /\ map asset_id (assets (updateAsset id x y p)) = map asset_id (assets p)
  /\ (forall a', In a' (assets (updateAsset id x y p)) ->
        exists a, In a (assets p) /\ sameButPosition a a'
                  /\ (asset_id a <> id -> a' = a)
                  /\ (asset_id a = id -> asset_x a' = x /\ asset_y a' = y))
  /\ ((forall a, In a (assets p) -> asset_id a <> id) ->
      updateAsset id x y p = p).
Proof.
  destruct (updateAsset_ids id x y p) as [Hids Hwalls].
  split; [exact Hwalls|]. split; [exact Hids|]. split.
  - intros a' Hin.
    destruct (updateAsset_In id x y p a' Hin) as [a [Ha [Hsame Hpos]]].
    exists a. split; [exact Ha|]. split; [exact Hsame|]. split.
    + intros Hne. apply String.eqb_neq in Hne. now rewrite Hne in Hpos.
    + intros He. apply String.eqb_eq in He. now rewrite He in Hpos.
  - intros Habsent. clear Hids Hwalls.
    destruct p as [ws asts]. unfold updateAsset; cbn.
    f_equal. cbn in Habsent.
    induction asts as [|a asts IH]; cbn; [reflexivity|].
    rewrite IH by (intros a' Hin; apply Habsent; now right).
    destruct (String.eqb_spec (asset_id a) id) as [Heq | _];
      [|reflexivity].
    exfalso. apply (Habsent a); [now left | exact Heq].
Qed.

End PlanUpdatesMore.

(** ** More of the drag controller (App.tsx, [onPointerMove]) *)

Section Moves.

Import Types Geometry App Editor Spec.


(** While a drag lasts only the last pointer position counts: two moves in
    a row leave the state the second move alone would leave, in every drag
    mode and with no drag. *)
Theorem pointer_move_last_wins
    (svg : option Rect) (s : State) (x1 y1 x2 y2 : R) :
  onPointerMove svg x2 y2 (onPointerMove svg x1 y1 s)
  = onPointerMove svg x2 y2 s.
Proof.
  unfold onPointerMove.
  destruct (dragRef s) as [| sc sv | wid wh | aid sw sp] eqn:Hd; cbn.
  - now rewrite Hd.
  - reflexivity.
  - now rewrite updateWallEndpoint_twice.
  - now rewrite updateAsset_twice.
Qed.


(** During a pan the view is the view at the start of the pan moved by the
    pointer's displacement, at the same scale, and the plan is not touched;
    so the world point that was under the pointer when the pan began is
    under the pointer after every move. *)
Theorem pan_follows_pointer
    (svg : option Rect) (s : State) (startClient : Pt) (startView : ViewState)
    (cx cy : R) :
  dragRef s = DragPan startClient startView ->
  view (onPointerMove svg cx cy s)
  = mkView (view_x startView + (cx - pt_x startClient))
           (view_y startView + (cy - pt_y startClient))
           (view_scale startView)
  /\ plan (onPointerMove svg cx cy s) = plan s
  /\ forall rect : Rect,
       clientToWorld (Some rect) (view (onPointerMove svg cx cy s))
         (mkPt cx cy)
       = clientToWorld (Some rect) startView startClient.
Proof.
  intros Hd. unfold onPointerMove. rewrite Hd. cbn.
  repeat split. intros rect. apply pt_eq; cbn; unfold Rdiv; f_equal; ring.
Qed.

Lemma pan_follows_pointer_witness :
  view (onPointerMove None 30 50
          (onPointerDownBackground None 10 10 initialState))
  = mkView (0 + (30 - 10)) (0 + (50 - 10)) 1.
Proof.
  refine (proj1 (pan_follows_pointer None
                   (onPointerDownBackground None 10 10 initialState)
                   (mkPt 10 10) (mkView 0 0 1) 30 50 _)).
  reflexivity.
Defined.


End Moves.

(** ** Adding walls and symbols, setting a length (App.tsx) *)

Section AddActions.

Import Types Geometry Js JsNumber App Editor Spec.

Variable parseFromString : string -> Dom.Document.







Lemma snap_anchor : snapToGrid (mkPt 140 140) GRID = mkPt 140 140.
Proof.
  unfold snapToGrid, GRID; cbn.
  rewrite (round_unique (140 / 20) 7) by lra. f_equal; lra.
Qed.

Lemma parsed_size_positive (svgText : string) (parsed : SvgParser.Parsed) :
  SvgParser.parseSvgText parseFromString svgText = Ok parsed ->
  0 < toR (SvgParser.vbW parsed) /\ 0 < toR (SvgParser.vbH parsed).
Proof.
  intros Hp.
  destruct (parseSvgText_size_resolved _ _ _ Hp) as [svgEl [_ Hsize]].
  destruct (viewBoxSize_finite (Dom.getAttribute svgEl "viewBox"))
    as [Hfw Hfh].
  destruct (resolveSize_positive svgEl _ Hfw Hfh) as [w [h [Hwh [Hw Hh]]]].
  rewrite Hwh in Hsize. inversion Hsize as [[Hvw Hvh]].
  rewrite Hvw, Hvh. now split.
Qed.

Lemma addSymbol_ok (freshId : string) (s : State) (parsed : SvgParser.Parsed) :
  SvgParser.parseSvgText parseFromString TV_svg = Ok parsed ->
  exists a : SvgAsset,
    addSymbol parseFromString freshId s
    = mkState (mkPlan (walls (plan s)) (assets (plan s) ++ [a]))
        (SelAsset freshId)
        (mkView (600 - asset_x a * view_scale (view s))
                (400 - asset_y a * view_scale (view s))
                (view_scale (view s)))
        (dragRef s)
    /\ asset_id a = freshId
    /\ asset_inner a = SvgParser.inner parsed
    /\ asset_x a = 140 /\ asset_y a = 140
    /\ asset_vbW a = toR (SvgParser.vbW parsed)
    /\ asset_vbH a = toR (SvgParser.vbH parsed)
    /\ asset_scale a = 120 / toR (SvgParser.vbW parsed).
Proof.
  intros Hp. unfold addSymbol, bind. rewrite Hp. cbn [tryCatch].
  rewrite snap_anchor. eexists. split; [reflexivity|]. cbn.
  repeat split.
  unfold metersToPx, TV_defaultWidthM, SCALE_PX_PER_M, Rdiv. f_equal. lra.
Qed.

Lemma addSymbol_throw (freshId : string) (s : State) (e : Error) :
  SvgParser.parseSvgText parseFromString TV_svg = Throw e ->
  addSymbol parseFromString freshId s = s.
Proof. intros Hp. unfold addSymbol, bind. now rewrite Hp. Qed.

(** [addSymbol] does nothing when the importer throws.  When it returns,
    one asset is appended and selected: anchored at (140, 140), a
    well-formed asset whose scale makes its intrinsic width come out at 120
    pixels (1.2 m), and the view is moved, at the same scale, so that the
    anchor is drawn at the canvas point (600, 400). *)
Theorem addSymbol_places_symbol (freshId : string) (s : State) :
  (forall e,
      SvgParser.parseSvgText parseFromString TV_svg = Throw e ->
      addSymbol parseFromString freshId s = s)
  /\ (forall parsed,
         SvgParser.parseSvgText parseFromString TV_svg = Ok parsed ->
         exists a : SvgAsset,
           plan (addSymbol parseFromString freshId s)
           = mkPlan (walls (plan s)) (assets (plan s) ++ [a])
           /\ selection (addSymbol parseFromString freshId s)
              = SelAsset (asset_id a)
           /\ dragRef (addSymbol parseFromString freshId s) = dragRef s
           /\ asset_id a = freshId
           /\ mkPt (asset_x a) (asset_y a) = mkPt 140 140
           /\ assetWellFormed a
           /\ asset_scale a * asset_vbW a = 120
           /\ view_scale (view (addSymbol parseFromString freshId s))
              = view_scale (view s)
           /\ worldToScreen (view (addSymbol parseFromString freshId s))
                (mkPt (asset_x a) (asset_y a))
              = mkPt 600 400).
Proof.
  split; [intros e; apply addSymbol_throw|].
  intros parsed Hp.
  destruct (parsed_size_positive _ _ Hp) as [Hw Hh].
  destruct (addSymbol_ok freshId s parsed Hp)
    as [a [Hs [Hid [_ [Hx [Hy [HvbW [HvbH Hscale]]]]]]]].
  exists a. rewrite Hs. cbn.
  split; [reflexivity|]. split; [now rewrite Hid|].
  split; [reflexivity|]. split; [exact Hid|].
  split; [now rewrite Hx, Hy|].
  split.
  { unfold assetWellFormed. rewrite HvbW, HvbH, Hscale.
    repeat split; try assumption.
    apply Rmult_lt_0_compat; [lra | now apply Rinv_0_lt_compat]. }
  split; [rewrite Hscale, HvbW; field; lra|].
  split; [reflexivity|].
  unfold worldToScreen; cbn. apply pt_eq; cbn; ring.
Qed.

End AddActions.

Lemma addSymbol_places_symbol_witness :
  App.addSymbol (fun _ => []) "asset_1" App.initialState = App.initialState.
Proof.
  refine (proj1 (addSymbol_places_symbol (fun _ => []) "asset_1"%string
                   App.initialState)
            (Js.ErrorMsg "Invalid SVG: missing <svg>") _).
  reflexivity.
Defined.

(** ** Setting the selected wall's length (App.tsx) *)

Section SetSelectedLength.

Import Types Geometry Js App Editor Spec.

Lemma selectedWall_found (p : Plan) (sel : Selection) (w : Wall) :
  selectedWall p sel = Some w ->
  sel = SelWall (wall_id w) /\ In w (walls p).
Proof.
  destruct sel as [id | id |]; cbn; try discriminate.
  intros Hf. apply find_some in Hf as [Hin Hid].
  apply String.eqb_eq in Hid. now subst id.
Qed.

Lemma updateWall_b_ids (id : string) (b : Pt) (p : Plan) :
  map wall_id (walls (updateWall id (mkWallPatch None None (Some b)) p))
  = map wall_id (walls p)
  /\ map wall_a (walls (updateWall id (mkWallPatch None None (Some b)) p))
     = map wall_a (walls p)
  /\ assets (updateWall id (mkWallPatch None None (Some b)) p) = assets p.
Proof.
  unfold updateWall; cbn. rewrite !map_map.
  split; [|split; [|reflexivity]]; apply map_ext; intros w;
    now destruct (String.eqb (wall_id w) id).
Qed.








End SetSelectedLength.

(** ** Invariants of the editor (App.tsx) *)

Section EditorInvariants.

Import Types Geometry Js JsNumber App Editor Spec.

Variable parseFromString : string -> Dom.Document.

Local Abbreviation run := (Editor.run parseFromString).
Local Abbreviation reachable := (Editor.reachable parseFromString).

Lemma validSelection_mono (p p' : Plan) (sel : Selection) :
  incl (wallIds p) (wallIds p') -> incl (assetIds p) (assetIds p') ->
  validSelection p sel -> validSelection p' sel.
Proof. intros Hw Ha. destruct sel; cbn; auto. Qed.

Lemma validDrag_mono (p p' : Plan) (d : DragState) :
  incl (wallIds p) (wallIds p') -> incl (assetIds p) (assetIds p') ->
  validDrag p d -> validDrag p' d.
Proof. intros Hw Ha. destruct d; cbn; auto. Qed.


Lemma nth_error_wallId (p : Plan) (i : nat) (w : Wall) :
  nth_error (walls p) i = Some w -> In (wall_id w) (wallIds p).
Proof. intros H. apply in_map. eapply nth_error_In, H. Qed.

Lemma nth_error_assetId (p : Plan) (i : nat) (a : SvgAsset) :
  nth_error (assets p) i = Some a -> In (asset_id a) (assetIds p).
Proof. intros H. apply in_map. eapply nth_error_In, H. Qed.

Lemma onPointerMove_ids (svg : option Rect) (cx cy : R) (s : State) :
  wallIds (plan (onPointerMove svg cx cy s)) = wallIds (plan s)
  /\ assetIds (plan (onPointerMove svg cx cy s)) = assetIds (plan s)
  /\ selection (onPointerMove svg cx cy s) = selection s
  /\ dragRef (onPointerMove svg cx cy s) = dragRef s.
Proof.
  unfold onPointerMove.
  destruct (dragRef s) as [| sc sv | wid wh | aid sw sp] eqn:Hd;
    cbn [plan selection dragRef].
  - now rewrite Hd.
  - now repeat split.
  - destruct (updateWallEndpoint_ids wid wh
                (snapToGrid (clientToWorld svg (view s) (mkPt cx cy)) GRID)
                (plan s)) as [Hw Ha].
    unfold assetIds. rewrite Ha. now repeat split.
  - match goal with
    | |- context [updateAsset ?i ?x ?y ?p] =>
        destruct (updateAsset_ids i x y p) as [Ha Hw]
    end.
    unfold wallIds. rewrite Hw. now repeat split.
Qed.

Lemma setLength_ids (m : R) (s : State) :
  wallIds (plan (setSelectedWallLengthMeters m s)) = wallIds (plan s)
  /\ assetIds (plan (setSelectedWallLengthMeters m s)) = assetIds (plan s).
Proof.
  unfold setSelectedWallLengthMeters.
  destruct (selectedWall (plan s) (selection s)) as [w|]; [|now split].
  cbn [plan].
  match goal with
  | |- context [updateWall ?i (mkWallPatch None None (Some ?b)) ?p] =>
      destruct (updateWall_b_ids i b p) as [Hw [_ Ha]]
  end.
  unfold wallIds, assetIds. now rewrite Hw, Ha.
Qed.

Lemma valid_run (s : State) (c : Command) :
  validSelection (plan s) (selection s) /\ validDrag (plan s) (dragRef s) ->
  validSelection (plan (run s c)) (selection (run s c))
  /\ validDrag (plan (run s c)) (dragRef (run s c)).
Proof.
  intros [Hsel Hdrag].
  destruct c as [svg ev | freshId len o | m]; cbn [Editor.run].
  - destruct ev as [cx cy dy | role cx cy | i cx cy | i | i which | cx cy
                    | | freshId]; cbn [step].
    + destruct svg; now split.
    + unfold onPointerDownBackground.
      destruct role as [r|]; [|now split].
      destruct (negb (String.eqb r "") && negb (String.eqb r "background"))%bool;
        now split.
    + destruct (nth_error (assets (plan s)) i) as [a|] eqn:Ha; [|now split].
      apply nth_error_assetId in Ha. now split.
    + destruct (nth_error (walls (plan s)) i) as [w|] eqn:Hw; [|now split].
      apply nth_error_wallId in Hw. now split.
    + destruct (nth_error (walls (plan s)) i) as [w|] eqn:Hw; [|now split].
      apply nth_error_wallId in Hw. now split.
    + destruct (onPointerMove_ids svg cx cy s) as [Hw [Ha [Hs Hd]]].
      rewrite Hs, Hd. split.
      * apply (validSelection_mono (plan s)); [rewrite Hw | rewrite Ha |];
          try apply incl_refl; assumption.
      * apply (validDrag_mono (plan s)); [rewrite Hw | rewrite Ha |];
          try apply incl_refl; assumption.
    + now split.
    + destruct (SvgParser.parseSvgText parseFromString TV_svg)
        as [parsed | e] eqn:Hp.
      * destruct (addSymbol_ok parseFromString freshId s parsed Hp)
          as [a [-> [Hid _]]].
        cbn [plan selection dragRef]. split.
        -- cbn. unfold assetIds; cbn. rewrite map_app. apply in_or_app.
           right. cbn. now left.
        -- apply (validDrag_mono (plan s)); [apply incl_refl | |].
           ++ unfold assetIds; cbn. rewrite map_app.
              apply incl_appl, incl_refl.
           ++ exact Hdrag.
      * rewrite (addSymbol_throw parseFromString freshId s e Hp). now split.
  - unfold addWall; cbn [plan selection dragRef]. split.
    + cbn. unfold wallIds; cbn. rewrite map_app. apply in_or_app.
      right. cbn. now left.
    + apply (validDrag_mono (plan s)); [| apply incl_refl |].
      * unfold wallIds; cbn. rewrite map_app. apply incl_appl, incl_refl.
      * exact Hdrag.
  - destruct (setLength_ids m s) as [Hw Ha].
    assert (Hsame : selection (setSelectedWallLengthMeters m s) = selection s
                    /\ dragRef (setSelectedWallLengthMeters m s) = dragRef s).
    { unfold setSelectedWallLengthMeters.
      destruct (selectedWall (plan s) (selection s)); now split. }
    destruct Hsame as [-> ->]. split.
    + apply (validSelection_mono (plan s)); [rewrite Hw | rewrite Ha |];
        try apply incl_refl; assumption.
    + apply (validDrag_mono (plan s)); [rewrite Hw | rewrite Ha |];
        try apply incl_refl; assumption.
Qed.

(** In every state the editor reaches from its initial state through
    canvas events, add-symbol, add-wall and the length field, the
    selection names a wall or an asset that is in the plan, and a handle or
    asset drag is about a wall or an asset that is in the plan: neither
    ever dangles. *)
Theorem selection_and_drag_never_dangle (s : State) :
  reachable s ->
  validSelection (plan s) (selection s) /\ validDrag (plan s) (dragRef s).
Proof.
  induction 1 as [| s c _ IH].
  - split; cbn; auto.
  - now apply valid_run.
Qed.




Lemma assets_run (s : State) (c : Command) :
  (forall a, In a (assets (plan s)) -> assetWellFormed a) ->
  forall a, In a (assets (plan (run s c))) -> assetWellFormed a.
Proof.
  intros Hwf.
  destruct c as [svg ev | freshId len o | m]; cbn [Editor.run].
  - destruct ev as [cx cy dy | role cx cy | i cx cy | i | i which | cx cy
                    | | freshId]; cbn [step].
    + now destruct svg.
    + unfold onPointerDownBackground.
      destruct role as [r|]; [|exact Hwf].
      now destruct (negb (String.eqb r "")
                    && negb (String.eqb r "background"))%bool.
    + now destruct (nth_error (assets (plan s)) i).
    + now destruct (nth_error (walls (plan s)) i).
    + now destruct (nth_error (walls (plan s)) i).
    + unfold onPointerMove.
      destruct (dragRef s) as [| sc sv | wid wh | aid sw sp];
        cbn [plan]; try exact Hwf.
      intros a' Hin. apply updateAsset_In in Hin as [a [Hin [Hsame _]]].
      destruct Hsame as [_ [_ [_ [Hw [Hh [Hsc _]]]]]].
      unfold assetWellFormed. rewrite Hw, Hh, Hsc. now apply Hwf.
    + exact Hwf.
    + destruct (SvgParser.parseSvgText parseFromString TV_svg)
        as [parsed | e] eqn:Hp.
      * destruct (parsed_size_positive parseFromString _ _ Hp) as [Hw Hh].
        destruct (addSymbol_ok parseFromString freshId s parsed Hp)
          as [a [-> [_ [_ [_ [_ [HvbW [HvbH Hscale]]]]]]]].
        cbn. intros a' Hin. apply in_app_or in Hin as [Hin | [<- | []]];
          [now apply Hwf|].
        unfold assetWellFormed. rewrite HvbW, HvbH, Hscale.
        repeat split; try assumption.
        apply Rmult_lt_0_compat; [lra | now apply Rinv_0_lt_compat].
      * now rewrite (addSymbol_throw parseFromString freshId s e Hp).
  - exact Hwf.
  - unfold setSelectedWallLengthMeters.
    now destruct (selectedWall (plan s) (selection s)).
Qed.

(** In every state the editor reaches from its initial state through
    canvas events, add-symbol, add-wall and the length field, every asset
    has a positive intrinsic width and height and a positive scale. *)
Theorem assets_stay_well_formed (s : State) :
  reachable s ->
  forall a, In a (assets (plan s)) -> assetWellFormed a.
Proof.
  induction 1 as [| s c _ IH].
  - intros a [].
  - now apply assets_run.
Qed.

End EditorInvariants.

Lemma selection_and_drag_never_dangle_witness :
  Spec.validSelection
    (App.plan (Editor.run (fun _ => []) App.initialState
                 (Editor.AddWall "w_1" 3 Editor.Horizontal)))
    (App.selection (Editor.run (fun _ => []) App.initialState
                      (Editor.AddWall "w_1" 3 Editor.Horizontal))).
Proof.
  refine (proj1 (selection_and_drag_never_dangle (fun _ => []) _ _)).
  apply Editor.reach_run, Editor.reach_init.
Defined.


Lemma assets_stay_well_formed_witness :
  exists a : Types.SvgAsset,
    In a (Types.assets
            (App.plan (Editor.run (fun _ => Spec.exampleDocument)
                         App.initialState
                         (Editor.Canvas None (App.AddSymbol "asset_1")))))
    /\ Spec.assetWellFormed a.
Proof.
  destruct (addSymbol_ok (fun _ => Spec.exampleDocument) "asset_1"
              App.initialState _
              (parseSvgText_succeeds (fun _ => Spec.exampleDocument)
                 App.TV_svg _ eq_refl eq_refl eq_refl))
    as [a [Hs _]].
  assert (Hin : In a (Types.assets
                        (App.plan (Editor.run (fun _ => Spec.exampleDocument)
                                     App.initialState
                                     (Editor.Canvas None
                                        (App.AddSymbol "asset_1")))))).
  { cbn [Editor.run App.step]. rewrite Hs. cbn. now left. }
  exists a. split; [exact Hin|].
  refine (assets_stay_well_formed (fun _ => Spec.exampleDocument) _ _ a Hin).
  apply Editor.reach_run, Editor.reach_init.
Defined.

(** ** More of plan generation (planGenerator.ts, App.tsx [handleGenerate]) *)

Section GenerationMore.

Import Types Js Encode PlanGenerator App Editor Spec.

Variable fetch : string -> result Response.

Lemma optDot_truthy_get (v : value) (k : string) :
  truthy (optDot v k) = true -> nullish v = false /\ optDot v k = get v k.
Proof.
  unfold optDot. destruct (nullish v); [discriminate | now split].
Qed.

Lemma generate_cases (prompt : string) :
  generatePlanFromText fetch prompt = js_of_plan fallback
  \/ exists res data,
       fetch prompt = Ok res /\ ok res = true /\ json res = Ok data
       /\ truthy (get (get data "plan") "walls") = true
       /\ generatePlanFromText fetch prompt = get data "plan".
Proof.
  unfold generatePlanFromText, bind.
  destruct (fetch prompt) as [res | e] eqn:Hfetch; [|now left].
  destruct (ok res) eqn:Hok; cbn [negb]; [|now left].
  destruct (json res) as [data | e] eqn:Hjson; [|now left].
  destruct (truthy (optDot (optDot data "plan") "walls")) eqn:Hw;
    cbn [negb]; [|now left].
  right. exists res, data.
  destruct (optDot_truthy_get _ _ Hw) as [Hplan Hget].
  rewrite Hget in Hw.
  assert (Hdata : nullish data = false).
  { unfold optDot in Hplan. destruct (nullish data); [discriminate|].
    reflexivity. }
  unfold optDot in Hw. rewrite Hdata in Hw.
  unfold dot. rewrite Hdata. cbn. now repeat split.
Qed.

Lemma generate_walls_truthy (prompt : string) :
  truthy (get (generatePlanFromText fetch prompt) "walls") = true.
Proof.
  destruct (generate_cases prompt) as [Hf | [res [data [_ [_ [_ [Hw Hg]]]]]]].
  - now rewrite Hf.
  - now rewrite Hg.
Qed.

(** Whatever the request does, the plan [generatePlanFromText] returns has
    a truthy [walls]: it is either the fallback plan or the [plan] of a
    successful response (status ok, body decoded) whose [plan.walls] is
    truthy, returned as it is with nothing else checked. *)
Theorem generatePlanFromText_always_has_walls (prompt : string) :
  truthy (get (generatePlanFromText fetch prompt) "walls") = true
  /\ (generatePlanFromText fetch prompt = js_of_plan fallback
      \/ exists res data,
           fetch prompt = Ok res /\ ok res = true /\ json res = Ok data
           /\ generatePlanFromText fetch prompt = get data "plan").
Proof.
  destruct (generate_cases prompt) as [Hf | [res [data [Hr [Hok [Hj [Hw Hg]]]]]]].
  - split; [now rewrite Hf | now left].
  - split; [now rewrite Hg|]. right. now exists res, data.
Qed.

Lemma truthy_get_not_nullish (v : value) (k : string) :
  truthy (get v k) = true -> nullish v = false.
Proof. destruct v; cbn; intros H; (reflexivity || discriminate). Qed.

(** [handleGenerate] never fails and always replaces the plan by what
    [generatePlanFromText] returns, leaving view and prompt alone.  The
    selection becomes [null] or a wall selection; when the new plan is a
    well-formed plan it is the plan's first wall, or [null] when there are
    no walls; when the request failed the plan is the fallback and the
    selection its wall [w1]. *)
Theorem handleGenerate_replaces_plan (prompt : string) (c : Cells) :
  exists sel : value,
    handleGenerate fetch prompt c
    = (mkCells (generatePlanFromText fetch prompt) (c_view c) (c_prompt c)
               sel, Ok tt)
    /\ (sel = Null
        \/ exists id, sel = Obj [("type", Str "wall"); ("id", id)]%string)
    /\ (forall p : Plan,
           generatePlanFromText fetch prompt = js_of_plan p ->
           sel = match walls p with
                 | [] => Null
                 | w :: _ => js_of_selection (SelWall (wall_id w))
                 end)
    /\ (RequestFailed fetch prompt ->
        generatePlanFromText fetch prompt = js_of_plan fallback
        /\ sel = js_of_selection (SelWall "w1")).
Proof.
  pose proof (generate_walls_truthy prompt) as Hwalls.
  set (next := generatePlanFromText fetch prompt) in *.
  pose proof (truthy_get_not_nullish _ _ Hwalls) as Hnext.
  pose proof (truthy_not_nullish _ Hwalls) as Hws.
  set (ws := get next "walls") in *.
  exists (if truthy (get0 ws)
          then Obj [("type", Str "wall"); ("id", get (get0 ws) "id")]%string
          else Null).
  assert (Hrun : handleGenerate fetch prompt c
                 = (mkCells next (c_view c) (c_prompt c)
                      (if truthy (get0 ws)
                       then Obj [("type", Str "wall");
                                 ("id", get (get0 ws) "id")]%string
                       else Null), Ok tt)).
  { unfold handleGenerate, bindA, lift, setPlan, setSelection.
    fold next. unfold dot. rewrite Hnext. fold ws.
    unfold optIndex0. rewrite Hws. cbn.
    destruct (truthy (get0 ws)) eqn:Hfirst; [|reflexivity].
    now rewrite (truthy_not_nullish _ Hfirst). }
  assert (Htyped : forall p : Plan,
             next = js_of_plan p ->
             (if truthy (get0 ws)
              then Obj [("type", Str "wall"); ("id", get (get0 ws) "id")]%string
              else Null)
             = match walls p with
               | [] => Null
               | w :: _ => js_of_selection (SelWall (wall_id w))
               end).
  { intros p Hp. unfold ws. rewrite Hp. cbn.
    destruct (walls p) as [|w rest]; reflexivity. }
  split; [exact Hrun|]. split; [|split].
  - destruct (truthy (get0 ws)); [right; now eexists | now left].
  - exact Htyped.
  - intros Hfail.
    assert (Hfb : next = js_of_plan fallback).
    { unfold next, generatePlanFromText, bind.
      destruct Hfail as [e He | res Hres Hok | res e Hres Hjson
                        | res data Hres Hjson Hmissing].
      - now rewrite He.
      - now rewrite Hres, Hok.
      - rewrite Hres. destruct (ok res); [|reflexivity]. now rewrite Hjson.
      - rewrite Hres. destruct (ok res); [|reflexivity]. rewrite Hjson.
        destruct (optDot (optDot data "plan") "walls");
          (discriminate || reflexivity). }
    split; [exact Hfb|]. now rewrite (Htyped fallback Hfb).
Qed.

End GenerationMore.

Lemma handleGenerate_replaces_plan_witness :
  exists sel : Js.value,
    Editor.handleGenerate (fun _ => Js.Throw Js.TypeError) "a flat"
      (App.cellsOf App.initialState "a flat")
    = (App.mkCells
         (PlanGenerator.generatePlanFromText
            (fun _ => Js.Throw Js.TypeError) "a flat")
         (App.c_view (App.cellsOf App.initialState "a flat"))
         (App.c_prompt (App.cellsOf App.initialState "a flat"))
         sel, Js.Ok tt)
    /\ sel = Encode.js_of_selection (Types.SelWall "w1").
Proof.
  destruct (handleGenerate_replaces_plan (fun _ => Js.Throw Js.TypeError)
              "a flat"%string (App.cellsOf App.initialState "a flat"))
    as [sel [Hrun [_ [_ Hfail]]]].
  exists sel. split; [exact Hrun|].
  apply Hfail. now apply (Spec.network_failure _ _ Js.TypeError).
Defined.

(** ** More of load and save (App.tsx, [onLoadFile], [onSave]) *)

Section LoadMore.

Import Types Js Encode App Editor Spec.

Variable JSON_parse : string -> result value.

Lemma coalesce_not_nullish (a b : value) :
  nullish b = false -> nullish (coalesce a b) = false.
Proof.
  intros Hb. unfold coalesce. destruct (nullish a) eqn:Ha; assumption.
Qed.

(** A load is all or nothing.  When it throws, no cell has changed, and
    either the text did not decode or the decoded value has no truthy
    [plan] (then the error is "Invalid file").  When it returns, all four
    cells are written: the plan cell holds a truthy value, the view and
    prompt cells hold neither [null] nor [undefined], and the selection is
    [null] or a wall selection with a truthy id. *)
Theorem onLoadFile_all_or_nothing (text : string) (c : Cells) :
  match onLoadFile JSON_parse text c with
  | (c', Throw e) =>
      c' = c
      /\ (JSON_parse text = Throw e
          \/ exists parsed,
               JSON_parse text = Ok parsed
               /\ truthy (optDot parsed "plan") = false
               /\ e = ErrorMsg "Invalid file")
  | (c', Ok _) =>
      truthy (c_plan c') = true
      /\ nullish (c_view c') = false
      /\ nullish (c_prompt c') = false
      /\ (c_selection c' = Null
          \/ exists id,
               truthy id = true
               /\ c_selection c'
                  = Obj [("type", Str "wall"); ("id", id)]%string)
  end.
Proof.
  rewrite onLoadFile_run.
  destruct (JSON_parse text) as [parsed | e]; [|split; [reflexivity | now left]].
  destruct (truthy (optDot parsed "plan")) eqn:Hplan.
  - destruct (optDot_truthy_get _ _ Hplan) as [_ Hget].
    rewrite Hget in Hplan. cbn [c_plan c_view c_prompt c_selection].
    split; [exact Hplan|].
    split; [now apply coalesce_not_nullish|].
    split; [now apply coalesce_not_nullish|].
    unfold loadedSelection.
    destruct (truthy (optDot (optIndex0 (get (get parsed "plan") "walls")) "id"))
      eqn:Hid; [|now left].
    right. destruct (optDot_truthy_get _ _ Hid) as [Hw0 Hgetid].
    rewrite Hgetid in Hid.
    assert (Hws : optIndex0 (get (get parsed "plan") "walls")
                  = get0 (get (get parsed "plan") "walls")).
    { unfold optIndex0 in *.
      destruct (nullish (get (get parsed "plan") "walls"));
        [discriminate | reflexivity]. }
    rewrite Hws in Hid.
    exists (get (get0 (get (get parsed "plan") "walls")) "id").
    split; [exact Hid | reflexivity].
  - split; [reflexivity|]. right. now exists parsed.
Qed.

(** Loading what [onSave] wrote restores the document: when the text decodes
    to the payload [{ plan, view, prompt }] of a state, the load succeeds
    and the plan, view and prompt cells hold that plan, view and prompt.
    The selection is not part of the payload: it becomes the first wall of
    the plan, or [null] when the plan has no wall or the first wall's id is
    the empty string. *)
Theorem save_load_round_trip
    (text : string) (s : State) (prompt : string) (c : Cells) :
  JSON_parse text = Ok (savePayload s prompt) ->
  onLoadFile JSON_parse text c
  = (mkCells (js_of_plan (plan s)) (js_of_view (view s)) (Str prompt)
             (firstWallSelection (walls (plan s))),
     Ok tt).
Proof.
  intros Hparse. rewrite onLoadFile_run, Hparse. cbn.
  unfold loadedSelection, firstWallSelection; cbn.
  destruct (walls (plan s)) as [|w rest]; cbn; [reflexivity|].
  now destruct (String.eqb (wall_id w) "").
Qed.

End LoadMore.

Lemma save_load_round_trip_witness :
  App.onLoadFile (fun _ => Js.Ok (Editor.savePayload App.initialState "p"))
    "" (App.mkCells Js.Null Js.Null Js.Null Js.Null)
  = (App.cellsOf App.initialState "p", Js.Ok tt).
Proof.
  exact (save_load_round_trip
           (fun _ => Js.Ok (Editor.savePayload App.initialState "p"))
           ""%string App.initialState "p"%string
           (App.mkCells Js.Null Js.Null Js.Null Js.Null) eq_refl).
Defined.

(** ** More of the symbol importer (svgParser.ts) *)

Section ImporterMore.

Import Js JsNumber JsString Dom SvgParser Spec.

Lemma Node_forall_ind (P : Node -> Prop) :
  (forall tag attrs children,
      Forall P children -> P (Element tag attrs children)) ->
  (forall data, P (Text data)) ->
  (forall data, P (Comment data)) ->
  forall n, P n.
Proof.
  intros Hel Htext Hcomment. fix IH 1.
  intros [tag attrs children | data | data];
    [|apply Htext | apply Hcomment].
  apply Hel. induction children as [|c cs IHcs]; constructor;
    [apply IH | exact IHcs].
Qed.

Lemma removeScripts_tag (n : Node) :
  isElementNamed "script" (removeScripts n) = isElementNamed "script" n.
Proof. now destruct n. Qed.

Lemma removeScripts_clean (n : Node) :
  isElementNamed "script" n = false ->
  findElement "script" (removeScripts n) = None.
Proof.
  induction n as [tag attrs children IH | data | data]
    using Node_forall_ind; intros Hn; [|reflexivity | reflexivity].
  cbn in Hn. cbn [removeScripts findElement]. rewrite Hn.
  induction IH as [|c cs Hc _ IHcs]; [reflexivity|].
  destruct (isElementNamed "script" c) eqn:Hscript; [exact IHcs|].
  now rewrite (Hc eq_refl).
Qed.

Lemma removeScripts_children_clean (el c : Node) :
  In c (childNodes (removeScripts el)) ->
  findElement "script" c = None.
Proof.
  destruct el as [tag attrs children | data | data]; cbn;
    [|contradiction | contradiction].
  induction children as [|c0 cs IH]; [contradiction|].
  destruct (isElementNamed "script" c0) eqn:Hscript; [exact IH|].
  intros [<- | Hin]; [now apply removeScripts_clean | now apply IH].
Qed.

Lemma removeScripts_fixpoint (n : Node) :
  findElement "script" n = None -> removeScripts n = n.
Proof.
  induction n as [tag attrs children IH | data | data]
    using Node_forall_ind; intros Hn; [|reflexivity | reflexivity].
  cbn [removeScripts]. f_equal. cbn [findElement] in Hn.
  destruct (String.eqb tag "script"); [discriminate|].
  induction IH as [|c cs Hc _ IHcs]; [reflexivity|].
  destruct (findElement "script" c) eqn:Hfind; [discriminate|].
  assert (Hnot : isElementNamed "script" c = false).
  { destruct c as [t a cs' | d | d]; cbn in *; try reflexivity.
    destruct (String.eqb t "script"); [discriminate | reflexivity]. }
  rewrite Hnot, (Hc eq_refl). f_equal. now apply IHcs.
Qed.

(** The fragment the importer returns is written from a tree without
    scripts: whenever [parseSvgText] returns, [inner] is the markup of the
    [svg] element's children after sanitisation, and no [script] element is
    left among them at any depth.  Sanitisation removes nothing else: a
    tree without script elements is returned as it is. *)
Theorem parseSvgText_inner_has_no_script
    (parseFromString : string -> Document) (svgText : string) (r : Parsed) :
  parseSvgText parseFromString svgText = Ok r ->
  exists svgEl : Node,
    querySelector "svg" (parseFromString (trim svgText)) = Some svgEl
    /\ inner r = markupOfNodes (childNodes (removeScripts svgEl))
    /\ (forall c, In c (childNodes (removeScripts svgEl)) ->
                  findElement "script" c = None)
    /\ (forall n, findElement "script" n = None -> removeScripts n = n).
Proof.
  unfold parseSvgText.
  destruct (querySelector "parsererror" (parseFromString (trim svgText)));
    [discriminate|].
  destruct (querySelector "svg" (parseFromString (trim svgText)))
    as [svgEl|]; [|discriminate].
  destruct (resolveSize svgEl (viewBoxSize (getAttribute svgEl "viewBox")))
    as [w h].
  destruct (nonEmpty (trim (innerHTML (removeScripts svgEl))));
    cbn [negb]; [|discriminate].
  intros H; inversion H; subst r. exists svgEl. cbn [inner].
  split; [reflexivity|]. split; [reflexivity|].
  split; [intros c; apply removeScripts_children_clean|].
  apply removeScripts_fixpoint.
Qed.

Lemma prune_all_scripts (attrs : list (string * string)) (children : list Node) :
  forallb (isElementNamed "script") children = true ->
  removeScripts (Element "svg" attrs children) = Element "svg" attrs [].
Proof.
  intros Hall. cbn [removeScripts]. f_equal.
  induction children as [|c cs IH]; [reflexivity|].
  cbn in Hall. apply andb_prop in Hall as [Hc Hcs].
  rewrite Hc. now apply IH.
Qed.

(** The importer throws in exactly three cases: the document has a
    [parsererror] element, it has no [svg] element, or the [svg] element
    has only white space left once its scripts are removed.  In particular
    an [svg] whose children are all scripts is rejected as having no
    drawable content. *)
Theorem parseSvgText_throws_exactly
    (parseFromString : string -> Document) (svgText : string) :
  ((exists e, parseSvgText parseFromString svgText = Throw e) <->
   (querySelector "parsererror" (parseFromString (trim svgText)) <> None
    \/ querySelector "svg" (parseFromString (trim svgText)) = None
    \/ exists svgEl,
         querySelector "svg" (parseFromString (trim svgText)) = Some svgEl
         /\ nonEmpty (trim (innerHTML (removeScripts svgEl))) = false))
  /\ (forall attrs children,
         querySelector "parsererror" (parseFromString (trim svgText)) = None ->
         querySelector "svg" (parseFromString (trim svgText))
         = Some (Element "svg" attrs children) ->
         forallb (isElementNamed "script") children = true ->
         parseSvgText parseFromString svgText
         = Throw (ErrorMsg "SVG has no drawable content")).
Proof.
  unfold parseSvgText. split.
  - destruct (querySelector "parsererror" (parseFromString (trim svgText)))
      as [err|].
    { split; [intros _; left; discriminate | intros _; now eexists]. }
    destruct (querySelector "svg" (parseFromString (trim svgText)))
      as [svgEl|].
    2:{ split; [intros _; right; now left | intros _; now eexists]. }
    destruct (resolveSize svgEl (viewBoxSize (getAttribute svgEl "viewBox")))
      as [w h].
    destruct (nonEmpty (trim (innerHTML (removeScripts svgEl)))) eqn:Hinner;
      cbn [negb].
    + split.
      * intros [e He]. discriminate.
      * intros [Herr | [Hsvg | [el [Hel Hblank]]]];
          [now contradiction Herr | discriminate |].
        inversion Hel; subst el. congruence.
    + split; [|intros _; now eexists].
      intros _. right. right. now exists svgEl.
  - intros attrs children Herr Hsvg Hall. rewrite Herr, Hsvg.
    destruct (resolveSize _ _) as [w h].
    now rewrite (prune_all_scripts attrs children Hall).
Qed.

End ImporterMore.

Lemma parseSvgText_inner_has_no_script_witness :
  exists svgEl : Dom.Node,
    Dom.querySelector "svg" Spec.exampleDocument = Some svgEl
    /\ forall c, In c (Dom.childNodes (Dom.removeScripts svgEl)) ->
                 Dom.findElement "script" c = None.
Proof.
  destruct (parseSvgText_inner_has_no_script (fun _ => Spec.exampleDocument)
              Spec.exampleSvgText _
              (parseSvgText_succeeds (fun _ => Spec.exampleDocument)
                 Spec.exampleSvgText _ eq_refl eq_refl eq_refl))
    as [svgEl [Hsvg [_ [Hclean _]]]].
  exists svgEl. now split.
Defined.

(** ** The selection list (App.tsx) *)

Section SelectionList.

Import Types Js JsString Encode App Editor Spec.

Lemma chars_append (s t : string) : chars (s ++ t) = chars s ++ chars t.
Proof.
  unfold chars. induction s as [|c s IH]; cbn; [reflexivity|].
  now rewrite IH.
Qed.

Lemma ofChars_chars (s : string) : ofChars (chars s) = s.
Proof. apply string_of_list_ascii_of_string. Qed.

Lemma splitAtColons_plain (piece l : list ascii) :
  existsb (fun c => Ascii.eqb c ":") l = false ->
  splitAtColons piece l = [ofChars (rev piece ++ l)].
Proof.
  revert piece. induction l as [|c l IH]; intros piece Hno; cbn.
  - now rewrite app_nil_r.
  - cbn in Hno. apply orb_false_elim in Hno as [Hc Hl].
    rewrite Hc, (IH _ Hl). cbn. now rewrite <- app_assoc.
Qed.

Lemma splitAtColons_first (piece pre post : list ascii) :
  existsb (fun c => Ascii.eqb c ":") pre = false ->
  splitAtColons piece (pre ++ ":"%char :: post)
  = ofChars (rev piece ++ pre) :: splitAtColons [] post.
Proof.
  revert piece. induction pre as [|c pre IH]; intros piece Hno; cbn.
  - now rewrite app_nil_r.
  - cbn in Hno. apply orb_false_elim in Hno as [Hc Hl].
    rewrite Hc, (IH _ Hl). cbn. now rewrite <- app_assoc.
Qed.

(** Choosing an entry of the selection list selects the element it shows
    as long as that element's id has no colon: the handler splits the
    entry's value at every colon and keeps the first two pieces.  An id
    with a colon is cut at its first colon, so the selection then names the
    part of the id before it. *)
Theorem select_list_round_trip :
  (onSelectChange (selectValue SelNull) = js_of_selection SelNull)
  /\ (forall id,
         hasColon id = false ->
         onSelectChange (selectValue (SelWall id))
         = js_of_selection (SelWall id)
         /\ onSelectChange (selectValue (SelAsset id))
            = js_of_selection (SelAsset id))
  /\ (forall pre post,
         hasColon pre = false ->
         onSelectChange (selectValue (SelWall (pre ++ ":" ++ post)))
         = js_of_selection (SelWall pre)
         /\ onSelectChange (selectValue (SelAsset (pre ++ ":" ++ post)))
            = js_of_selection (SelAsset pre)).
Proof.
  split; [reflexivity|]. split.
  - intros id Hno. unfold hasColon, chars in Hno.
    unfold onSelectChange, splitColons, selectValue, chars; cbn.
    rewrite !(splitAtColons_plain _ _ Hno). cbn.
    fold (chars id). now rewrite ofChars_chars.
  - intros pre post Hno. unfold hasColon, chars in Hno.
    unfold onSelectChange, splitColons, selectValue; cbn.
    rewrite !chars_append. unfold chars; cbn.
    rewrite !(splitAtColons_first _ _ _ Hno). cbn.
    fold (chars pre). now rewrite ofChars_chars.
Qed.

End SelectionList.

(** ** Instances of the statements above *)

Section Instances.

Import Types Geometry Js Dom Encode App Editor Spec.

Lemma updateAsset_moves_only_witness :
  updateAsset "asset_9" 40 60 initialPlan = initialPlan.
Proof.
  refine (proj2 (proj2 (proj2 (updateAsset_moves_only initialPlan "asset_9"
                                 40 60))) _).
  intros a [].
Defined.


Lemma parseSvgText_throws_exactly_witness :
  SvgParser.parseSvgText
    (fun _ => [Element "svg" [] [Element "script" [] [Text "x"]]])
    "<svg><script>x</script></svg>"
  = Throw (ErrorMsg "SVG has no drawable content").
Proof.
  refine (proj2 (parseSvgText_throws_exactly
                   (fun _ => [Element "svg" [] [Element "script" [] [Text "x"]]])
                   "<svg><script>x</script></svg>")
            [] [Element "script" [] [Text "x"]] _ _ _);
    reflexivity.
Defined.

Lemma select_list_round_trip_witness :
  onSelectChange (selectValue (SelWall "w1")) = js_of_selection (SelWall "w1")
  /\ onSelectChange (selectValue (SelWall "a:b"))
     = js_of_selection (SelWall "a").
Proof.
  destruct select_list_round_trip as [_ [Hplain Hcut]]. split.
  - exact (proj1 (Hplain "w1"%string eq_refl)).
  - exact (proj1 (Hcut "a"%string "b"%string eq_refl)).
Defined.

End Instances.
